(** * NeoPixelBus colour objects: RgbColor, RgbwColor, HslColor, HsbColor

    A shallow embedding of [src/internal/RgbColor.h], [RgbwColor.h],
    [HslColor.h] and [HsbColor.h], the properties of the colour
    arithmetic that the library's description states, and further
    properties read off the code: saturation, order and round trips of
    the integer operations, the blends at their end points, and the
    conversions of grays and of the primary and secondary colours.

    Conventions.
    - [uint8_t] and [uint16_t] values are integers of [Z]; a conversion to
      one of these types is written out as a reduction modulo [2^8] or
      [2^16] ([CInt.to_u8], [CInt.to_u16]).
    - [int] is the 32-bit type of the targets this code is built for.
      Operands narrower than [int] are promoted to [int] before any
      arithmetic, so the arithmetic itself is the one of [Z]; the lemmas
      named [*_int_range] bound the values that occur, all of them far
      inside the range of [int].
    - [float] is IEEE-754 binary32, through the executable specification
      [SpecFloat] of the standard library at precision 24 and maximal
      exponent 128.  A conversion from [float] to an integer type
      truncates and has no defined result when the truncated value does
      not fit the destination; such conversions return an [option]. *)

From Stdlib Require Import ZArith Lia Bool.
From Stdlib Require Import Floats.SpecFloat.

Local Open Scope Z_scope.

(** ** Machine integers *)

Module CInt.

Definition wrap (bits x : Z) : Z := x mod 2 ^ bits.

(** Conversion of an integer value to [uint8_t] / [uint16_t]. *)
Definition to_u8 (x : Z) : Z := wrap 8 x.
Definition to_u16 (x : Z) : Z := wrap 16 x.
Definition to_u32 (x : Z) : Z := wrap 32 x.

(** The values a [uint8_t] / [uint16_t] object can hold. *)
Definition u8 (x : Z) : Prop := 0 <= x <= 255.
Definition u16 (x : Z) : Prop := 0 <= x <= 65535.

End CInt.

(** ** binary32 floating point *)

Module F32.

Definition prec : Z := 24.
Definition emax : Z := 128.

Definition float : Set := spec_float.

(** The values of the type: the special values and the finite numbers
    whose mantissa and exponent are in canonical form. *)
Definition valid (x : float) : bool := valid_binary prec emax x.

Definition add : float -> float -> float := SFadd prec emax.
Definition sub : float -> float -> float := SFsub prec emax.
Definition mul : float -> float -> float := SFmul prec emax.
Definition div : float -> float -> float := SFdiv prec emax.

(** [std::abs] *)
Definition abs : float -> float := SFabs.

(** [==], [<], [<=], [>] *)
Definition eqb : float -> float -> bool := SFeqb.
Definition ltb : float -> float -> bool := SFltb.
Definition leb : float -> float -> bool := SFleb.
Definition gtb (x y : float) : bool := SFltb y x.

(** [std::min(a, b)], which is [(b < a) ? b : a]. *)
Definition min (a b : float) : float := if ltb b a then b else a.

(** Conversion of an integer value to [float] (round to nearest even). *)
Definition of_Z (z : Z) : float := binary_normalize prec emax z 0 false.

(** The literals of the sources. *)
Definition zero : float := S754_zero false.
Definition half : float := Eval vm_compute in div (of_Z 1) (of_Z 2).
Definition one : float := Eval vm_compute in of_Z 1.
Definition two : float := Eval vm_compute in of_Z 2.
Definition four : float := Eval vm_compute in of_Z 4.
Definition six : float := Eval vm_compute in of_Z 6.
Definition f255 : float := Eval vm_compute in of_Z 255.
Definition f100000 : float := Eval vm_compute in of_Z 100000.
Definition three : float := Eval vm_compute in of_Z 3.

(** The constant expressions [1.0f / 3.0f], [1.0f / 6.0f], [2.0f / 3.0f]. *)
Definition one_third : float := Eval vm_compute in div one three.
Definition one_sixth : float := Eval vm_compute in div one six.
Definition two_thirds : float := Eval vm_compute in div two three.

(** The integral part of a finite number (truncation toward zero). *)
Definition trunc (x : float) : option Z :=
  match x with
  | S754_zero _ => Some 0
  | S754_finite s m e => Some (cond_Zopp s (Z.shiftl (Zpos m) e))
  | S754_infinity _ | S754_nan => None
  end.

(** Conversion to an integer type with values [lo..hi]: defined only when
    the truncated value is one of them. *)
Definition to_range (lo hi : Z) (x : float) : option Z :=
  match trunc x with
  | Some z => if (lo <=? z) && (z <=? hi) then Some z else None
  | None => None
  end.

Definition to_u8 : float -> option Z := to_range 0 255.
Definition to_int : float -> option Z := to_range (- 2 ^ 31) (2 ^ 31 - 1).

End F32.

(** ** The current settings read by [CalcTotalTenthMilliAmpere] *)

Module NeoRgbCurrentSettings.

(** Modelled from the spec: [NeoSettings.h], which declares the settings
    objects, is not among the sources.  The description gives
    [RgbCurrentSettings {RedTenthMilliAmpere, GreenTenthMilliAmpere,
    BlueTenthMilliAmpere}]; the fields are integer constants, which the
    colour objects only read. *)
Record t : Set := mk {
  RedTenthMilliAmpere : Z;
  GreenTenthMilliAmpere : Z;
  BlueTenthMilliAmpere : Z
}.

(** The constants are taken to be unsigned and of at most 16 bits, so that
    a product with a channel stays inside [int]. *)
Definition wf (s : t) : Prop :=
  CInt.u16 (RedTenthMilliAmpere s) /\ CInt.u16 (GreenTenthMilliAmpere s) /\
  CInt.u16 (BlueTenthMilliAmpere s).

End NeoRgbCurrentSettings.

Module NeoRgbwCurrentSettings.

(** Modelled from the spec: the RGBW settings object of [NeoSettings.h],
    which according to the description adds [WhiteCurrent] to the three
    constants above. *)
Record t : Set := mk {
  RedTenthMilliAmpere : Z;
  GreenTenthMilliAmpere : Z;
  BlueTenthMilliAmpere : Z;
  WhiteCurrent : Z
}.

Definition wf (s : t) : Prop :=
  CInt.u16 (RedTenthMilliAmpere s) /\ CInt.u16 (GreenTenthMilliAmpere s) /\
  CInt.u16 (BlueTenthMilliAmpere s) /\ CInt.u16 (WhiteCurrent s).

End NeoRgbwCurrentSettings.

(** ** HsbColor: the record (declared ahead of RgbColor, as in the header) *)

Module HsbColor.

Record t : Set := mk { H : F32.float; S : F32.float; B : F32.float }.

(** [HsbColor(float h, float s, float b)] *)
Definition HsbColor (h s b : F32.float) : t := mk h s b.

End HsbColor.

(** ** RgbColor *)

Module RgbColor.

Record t : Set := mk { R : Z; G : Z; B : Z }.

(** The channels are [uint8_t]. *)
Definition wf (c : t) : Prop := CInt.u8 (R c) /\ CInt.u8 (G c) /\ CInt.u8 (B c).

(** [RgbColor(uint8_t r, uint8_t g, uint8_t b)] *)
Definition RgbColor (r g b : Z) : t := mk r g b.

(** [RgbColor(uint8_t brightness)] *)
Definition RgbColor_brightness (brightness : Z) : t :=
  mk brightness brightness brightness.

(** [operator==] *)
Definition eqb (a b : t) : bool :=
  (R a =? R b) && (G a =? G b) && (B a =? B b).

(** [(uint8_t)(((uint16_t)R + (uint16_t)G + (uint16_t)B) / 3)] *)
Definition CalculateBrightness (c : t) : Z :=
  CInt.to_u8 ((CInt.to_u16 (R c) + CInt.to_u16 (G c) + CInt.to_u16 (B c)) / 3).

(** [(static_cast<uint16_t>(value) * (static_cast<uint16_t>(ratio) + 1)) >> 8],
    converted to the [uint8_t] return type. *)
Definition _elementDim (value ratio : Z) : Z :=
  CInt.to_u8 (Z.shiftr (CInt.to_u16 value * (CInt.to_u16 ratio + 1)) 8).

Definition Dim (c : t) (ratio : Z) : t :=
  RgbColor (_elementDim (R c) ratio) (_elementDim (G c) ratio) (_elementDim (B c) ratio).

(** The quotient [((value + 1) << 8) / (ratio + 1)], computed in [int]. *)
Definition brighten_quotient (value ratio : Z) : Z :=
  Z.shiftl (CInt.to_u16 value + 1) 8 / (CInt.to_u16 ratio + 1).

(** The [uint16_t element] local of [_elementBrighten] after its
    initialisation: the quotient converted to 16 bits. *)
Definition brighten_element (value ratio : Z) : Z :=
  CInt.to_u16 (brighten_quotient value ratio).

(** The value of [element] at the [return]: 255 when [element > 255],
    otherwise the outcome of [element -= 1] (again a [uint16_t]). *)
Definition brighten_adjust (element : Z) : Z :=
  if element >? 255 then 255 else CInt.to_u16 (element - 1).

Definition _elementBrighten (value ratio : Z) : Z :=
  CInt.to_u8 (brighten_adjust (brighten_element value ratio)).

Definition Brighten (c : t) (ratio : Z) : t :=
  RgbColor (_elementBrighten (R c) ratio) (_elementBrighten (G c) ratio)
           (_elementBrighten (B c) ratio).

(** The channel of [Brighten] in the words of the description, over the
    unbounded integers: [element = ((value+1)<<8) / (ratio+1)], clamped
    to 255, and decremented unless clamped. *)
Definition brighten_described (value ratio : Z) : Z :=
  let element := (value + 1) * 2 ^ 8 / (ratio + 1) in
  if element >? 255 then 255 else element - 1.

(** Construction from three [float] expressions: each is converted to the
    [uint8_t] parameter of the constructor. *)
Definition of_floats (r g b : F32.float) : option t :=
  match F32.to_u8 r, F32.to_u8 g, F32.to_u8 b with
  | Some r', Some g', Some b' => Some (RgbColor r' g' b')
  | _, _, _ => None
  end.

(** [left.X + ((right.X - left.X) * progress)]: the difference is an
    [int], converted to [float] for the product; so is [left.X] for the
    sum. *)
Definition blend_channel (l r : Z) (progress : F32.float) : F32.float :=
  F32.add (F32.of_Z l) (F32.mul (F32.of_Z (r - l)) progress).

Definition LinearBlend (left right : t) (progress : F32.float) : option t :=
  of_floats (blend_channel (R left) (R right) progress)
            (blend_channel (G left) (G right) progress)
            (blend_channel (B left) (B right) progress).

(** [fuzzyCompare(float p1, float p2)]:
    [std::abs(p1 - p2) * 100000.f <= std::min(std::abs(p1), std::abs(p2))] *)
Definition fuzzyCompare (p1 p2 : F32.float) : bool :=
  F32.leb (F32.mul (F32.abs (F32.sub p1 p2)) F32.f100000)
          (F32.min (F32.abs p1) (F32.abs p2)).

(** The correction of the hue at the head of [convertToRgbColor(HsbColor)]:
    [if (H < 0.0f) H += 1.0f; else if (H >= 1.0f) H -= 1.0f;] *)
Definition wrapHue (h : F32.float) : F32.float :=
  if F32.ltb h F32.zero then F32.add h F32.one
  else if F32.leb F32.one h then F32.sub h F32.one
  else h.


(** [convertToRgbColor(HsbColor color)] *)
Definition convertToRgbColor (color : HsbColor.t) : option t :=
  let S := HsbColor.S color in
  let B := HsbColor.B color in
  if fuzzyCompare S F32.zero then
    of_floats B B B
  else
    let H := F32.mul (wrapHue (HsbColor.H color)) F32.six in
    match F32.to_int H with
    | None => None
    | Some i =>
      let f := F32.sub H (F32.of_Z i) in
      let q := F32.mul B (F32.sub F32.one (F32.mul S f)) in
      let p := F32.mul B (F32.sub F32.one S) in
      let t := F32.mul B (F32.sub F32.one (F32.mul S (F32.sub F32.one f))) in
      match i with
      | 0 => of_floats B t p
      | 1 => of_floats q B p
      | 2 => of_floats p B t
      | 3 => of_floats p q B
      | 4 => of_floats t p B
      | _ => of_floats B p q
      end
    end.

(** [operator!=] *)
Definition neqb (a b : t) : bool := negb (eqb a b).

(** One channel of [Darken]: [if (X > delta) X -= delta; else X = 0;] *)
Definition darken_channel (x delta : Z) : Z :=
  if x >? delta then CInt.to_u8 (x - delta) else 0.

(** [Darken] and [Lighten] update the object in place; here they map the
    object before the call to the object after it. *)
Definition Darken (c : t) (delta : Z) : t :=
  mk (darken_channel (R c) delta) (darken_channel (G c) delta)
     (darken_channel (B c) delta).

(** One channel of [Lighten]: [if (X < 255 - delta) X += delta; else X = 255;] *)
Definition lighten_channel (x delta : Z) : Z :=
  if x <? 255 - delta then CInt.to_u8 (x + delta) else 255.

Definition Lighten (c : t) (delta : Z) : t :=
  mk (lighten_channel (R c) delta) (lighten_channel (G c) delta)
     (lighten_channel (B c) delta).

(** One channel of [BilinearBlend]:
    [c00.X * v00 + c10.X * v10 + c01.X * v01 + c11.X * v11], summed from
    the left, with the four weights of the function. *)
Definition bilinear_channel (x y : F32.float) (c00 c01 c10 c11 : Z) : F32.float :=
  let v00 := F32.mul (F32.sub F32.one x) (F32.sub F32.one y) in
  let v10 := F32.mul x (F32.sub F32.one y) in
  let v01 := F32.mul (F32.sub F32.one x) y in
  let v11 := F32.mul x y in
  F32.add (F32.add (F32.add (F32.mul (F32.of_Z c00) v00)
                            (F32.mul (F32.of_Z c10) v10))
                   (F32.mul (F32.of_Z c01) v01))
          (F32.mul (F32.of_Z c11) v11).

Definition BilinearBlend (c00 c01 c10 c11 : t) (x y : F32.float) : option t :=
  of_floats (bilinear_channel x y (R c00) (R c01) (R c10) (R c11))
            (bilinear_channel x y (G c00) (G c01) (G c10) (G c11))
            (bilinear_channel x y (B c00) (B c01) (B c10) (B c11)).

(** [CalcTotalTenthMilliAmpere]: the [int] total, converted to the
    [uint32_t] return type. *)
Definition CalcTotalTenthMilliAmpere (c : t)
  (settings : NeoRgbCurrentSettings.t) : Z :=
  let total := 0 in
  let total := total + R c * NeoRgbCurrentSettings.RedTenthMilliAmpere settings / 255 in
  let total := total + G c * NeoRgbCurrentSettings.GreenTenthMilliAmpere settings / 255 in
  let total := total + B c * NeoRgbCurrentSettings.BlueTenthMilliAmpere settings / 255 in
  CInt.to_u32 total.

End RgbColor.

(** ** HslColor *)

Module HslColor.

Record t : Set := mk { H : F32.float; S : F32.float; L : F32.float }.

(** [HslColor(float h, float s, float l)] *)
Definition HslColor (h s l : F32.float) : t := mk h s l.

(** [color.X / 255.0f] *)
Definition normalized (x : Z) : F32.float := F32.div (F32.of_Z x) F32.f255.

(** [(r > g && r > b) ? r : (g > b) ? g : b] *)
Definition channel_max (r g b : F32.float) : F32.float :=
  if F32.gtb r g && F32.gtb r b then r else if F32.gtb g b then g else b.

(** [(r < g && r < b) ? r : (g < b) ? g : b] *)
Definition channel_min (r g b : F32.float) : F32.float :=
  if F32.ltb r g && F32.ltb r b then r else if F32.ltb g b then g else b.

Definition convertToHslColor (color : RgbColor.t) : t :=
  let r := normalized (RgbColor.R color) in
  let g := normalized (RgbColor.G color) in
  let b := normalized (RgbColor.B color) in
  let max := channel_max r g b in
  let min := channel_min r g b in
  let l := F32.div (F32.add max min) F32.two in
  if F32.eqb max min then
    mk F32.zero F32.zero l
  else
    let d := F32.sub max min in
    let s :=
      if F32.gtb l F32.half
      then F32.div d (F32.sub F32.two (F32.add max min))
      else F32.div d (F32.add max min) in
    let h :=
      if F32.gtb r g && F32.gtb r b then
        F32.add (F32.div (F32.sub g b) d) (if F32.ltb g b then F32.six else F32.zero)
      else if F32.gtb g b then
        F32.add (F32.div (F32.sub b r) d) F32.two
      else
        F32.add (F32.div (F32.sub r g) d) F32.four in
    mk (F32.div h F32.six) s l.

End HslColor.

(** ** The members of RgbColor and HsbColor defined once both are complete *)

Module HslToRgb.

(** [_CalcColor(float p, float q, float t)] *)
Definition _CalcColor (p q t : F32.float) : F32.float :=
  let t := if F32.ltb t F32.zero then F32.add t F32.one else t in
  let t := if F32.gtb t F32.one then F32.sub t F32.one else t in
  if F32.ltb t F32.one_sixth then
    F32.add p (F32.mul (F32.mul (F32.sub q p) F32.six) t)
  else if F32.ltb t F32.half then
    q
  else if F32.ltb t F32.two_thirds then
    F32.add p (F32.mul (F32.mul (F32.sub q p) (F32.sub F32.two_thirds t)) F32.six)
  else
    p.

(** [convertToRgbColor(const HslColor& color)] *)
Definition convertToRgbColor (color : HslColor.t) : option RgbColor.t :=
  let h := HslColor.H color in
  let s := HslColor.S color in
  let l := HslColor.L color in
  let '(r, g, b) :=
    if F32.eqb s F32.zero || F32.eqb l F32.zero then
      (l, l, l)
    else
      let q :=
        if F32.ltb l F32.half
        then F32.mul l (F32.add F32.one s)
        else F32.sub (F32.add l s) (F32.mul l s) in
      let p := F32.sub (F32.mul F32.two l) q in
      (_CalcColor p q (F32.add h F32.one_third),
       _CalcColor p q h,
       _CalcColor p q (F32.sub h F32.one_third)) in
  RgbColor.of_floats (F32.mul r F32.f255) (F32.mul g F32.f255) (F32.mul b F32.f255).

End HslToRgb.

Module RgbToHsb.

(** [convertToHsbColor(const RgbColor& color)] *)
Definition convertToHsbColor (color : RgbColor.t) : HsbColor.t :=
  let r := HslColor.normalized (RgbColor.R color) in
  let g := HslColor.normalized (RgbColor.G color) in
  let b := HslColor.normalized (RgbColor.B color) in
  let max := HslColor.channel_max r g b in
  let min := HslColor.channel_min r g b in
  let d := F32.sub max min in
  let B := max in
  let S := if F32.eqb B F32.zero then F32.zero else F32.div d B in
  let H :=
    if negb (F32.eqb d F32.zero) then
      let H :=
        if F32.eqb r max then
          F32.add (F32.div (F32.sub g b) d) (if F32.ltb g b then F32.six else F32.zero)
        else if F32.eqb g max then
          F32.add (F32.div (F32.sub b r) d) F32.two
        else
          F32.add (F32.div (F32.sub r g) d) F32.four in
      F32.div H F32.six
    else F32.zero in
  HsbColor.mk H S B.

End RgbToHsb.

(** ** RgbwColor *)

Module RgbwColor.

Record t : Set := mk { R : Z; G : Z; B : Z; W : Z }.

Definition wf (c : t) : Prop :=
  CInt.u8 (R c) /\ CInt.u8 (G c) /\ CInt.u8 (B c) /\ CInt.u8 (W c).

(** [RgbwColor(uint8_t r, uint8_t g, uint8_t b, uint8_t w = 0)] *)
Definition RgbwColor (r g b w : Z) : t := mk r g b w.

(** [RgbwColor(uint8_t brightness) : R{}, G{}, B{}, W{brightness}] *)
Definition RgbwColor_brightness (brightness : Z) : t := mk 0 0 0 brightness.

(** [RgbwColor(const RgbColor& color)] *)
Definition RgbwColor_of_rgb (color : RgbColor.t) : t :=
  mk (RgbColor.R color) (RgbColor.G color) (RgbColor.B color) 0.

(** The colour part of an RgbwColor, as an RgbColor. *)
Definition rgb (c : t) : RgbColor.t := RgbColor.mk (R c) (G c) (B c).

Definition IsMonotone (c : t) : bool := (R c =? B c) && (R c =? G c).

Definition IsColorLess (c : t) : bool := (R c =? 0) && (B c =? 0) && (G c =? 0).

Definition CalculateBrightness (c : t) : Z :=
  let colorB :=
    CInt.to_u8 ((CInt.to_u16 (R c) + CInt.to_u16 (G c) + CInt.to_u16 (B c)) / 3) in
  if W c >? colorB then W c else colorB.

(** One channel of [Lighten]:
    [if (X < 255 - delta) X += delta; else X = 255;] *)
Definition lighten_channel (x delta : Z) : Z :=
  if x <? 255 - delta then CInt.to_u8 (x + delta) else 255.

(** [Lighten] updates the object in place; here it maps the object
    before the call to the object after it. *)
Definition Lighten (c : t) (delta : Z) : t :=
  if IsColorLess c then
    mk (R c) (G c) (B c) (lighten_channel (W c) delta)
  else
    mk (lighten_channel (R c) delta) (lighten_channel (G c) delta)
       (lighten_channel (B c) delta) (W c).

(** [operator==], [operator!=] *)
Definition eqb (a b : t) : bool :=
  (R a =? R b) && (G a =? G b) && (B a =? B b) && (W a =? W b).

Definition neqb (a b : t) : bool := negb (eqb a b).

(** [RgbwColor::_elementDim], [RgbwColor::_elementBrighten]: the class has
    its own copies of the two helpers. *)
Definition _elementDim (value ratio : Z) : Z :=
  CInt.to_u8 (Z.shiftr (CInt.to_u16 value * (CInt.to_u16 ratio + 1)) 8).

Definition _elementBrighten (value ratio : Z) : Z :=
  let element :=
    CInt.to_u16 (Z.shiftl (CInt.to_u16 value + 1) 8 / (CInt.to_u16 ratio + 1)) in
  CInt.to_u8 (if element >? 255 then 255 else CInt.to_u16 (element - 1)).

Definition Dim (c : t) (ratio : Z) : t :=
  mk (_elementDim (R c) ratio) (_elementDim (G c) ratio)
     (_elementDim (B c) ratio) (_elementDim (W c) ratio).

Definition Brighten (c : t) (ratio : Z) : t :=
  mk (_elementBrighten (R c) ratio) (_elementBrighten (G c) ratio)
     (_elementBrighten (B c) ratio) (_elementBrighten (W c) ratio).

(** One channel of [Darken]: [if (X > delta) X -= delta; else X = 0;] *)
Definition darken_channel (x delta : Z) : Z :=
  if x >? delta then CInt.to_u8 (x - delta) else 0.

Definition Darken (c : t) (delta : Z) : t :=
  mk (darken_channel (R c) delta) (darken_channel (G c) delta)
     (darken_channel (B c) delta) (darken_channel (W c) delta).

(** Construction from four [float] expressions. *)
Definition of_floats (r g b w : F32.float) : option t :=
  match F32.to_u8 r, F32.to_u8 g, F32.to_u8 b, F32.to_u8 w with
  | Some r', Some g', Some b', Some w' => Some (mk r' g' b' w')
  | _, _, _, _ => None
  end.

(** [left.X + ((right.X - left.X) * progress)] *)
Definition blend_channel (l r : Z) (progress : F32.float) : F32.float :=
  F32.add (F32.of_Z l) (F32.mul (F32.of_Z (r - l)) progress).

Definition LinearBlend (left right : t) (progress : F32.float) : option t :=
  of_floats (blend_channel (R left) (R right) progress)
            (blend_channel (G left) (G right) progress)
            (blend_channel (B left) (B right) progress)
            (blend_channel (W left) (W right) progress).

Definition bilinear_channel (x y : F32.float) (c00 c01 c10 c11 : Z) : F32.float :=
  let v00 := F32.mul (F32.sub F32.one x) (F32.sub F32.one y) in
  let v10 := F32.mul x (F32.sub F32.one y) in
  let v01 := F32.mul (F32.sub F32.one x) y in
  let v11 := F32.mul x y in
  F32.add (F32.add (F32.add (F32.mul (F32.of_Z c00) v00)
                            (F32.mul (F32.of_Z c10) v10))
                   (F32.mul (F32.of_Z c01) v01))
          (F32.mul (F32.of_Z c11) v11).

Definition BilinearBlend (c00 c01 c10 c11 : t) (x y : F32.float) : option t :=
  of_floats (bilinear_channel x y (R c00) (R c01) (R c10) (R c11))
            (bilinear_channel x y (G c00) (G c01) (G c10) (G c11))
            (bilinear_channel x y (B c00) (B c01) (B c10) (B c11))
            (bilinear_channel x y (W c00) (W c01) (W c10) (W c11)).

(** [CalcTotalTenthMilliAmpere]: the [int] total, converted to the
    [uint16_t] return type. *)
Definition CalcTotalTenthMilliAmpere (c : t)
  (settings : NeoRgbwCurrentSettings.t) : Z :=
  let total := 0 in
  let total := total + R c * NeoRgbwCurrentSettings.RedTenthMilliAmpere settings / 255 in
  let total := total + G c * NeoRgbwCurrentSettings.GreenTenthMilliAmpere settings / 255 in
  let total := total + B c * NeoRgbwCurrentSettings.BlueTenthMilliAmpere settings / 255 in
  let total := total + W c * NeoRgbwCurrentSettings.WhiteCurrent settings / 255 in
  CInt.to_u16 total.

(** [RgbwColor(const HslColor&)], [RgbwColor(const HsbColor&)]:
    [RgbwColor{RgbColor{color}}]. *)
Definition RgbwColor_of_hsl (color : HslColor.t) : option t :=
  option_map RgbwColor_of_rgb (HslToRgb.convertToRgbColor color).

Definition RgbwColor_of_hsb (color : HsbColor.t) : option t :=
  option_map RgbwColor_of_rgb (RgbColor.convertToRgbColor color).

End RgbwColor.

(** ** Checks over all 8-bit values

    A channel has 256 values; properties of the blends and of the
    conversions of grays are decided by running the code on all of them. *)

Module Exhaustive.

Fixpoint below (n : nat) (f : Z -> bool) : bool :=
  match n with
  | O => true
  | S k => f (Z.of_nat k) && below k f
  end.

Definition all_u8 (f : Z -> bool) : bool := below 256 f.

Definition all_u8_pairs (f : Z -> Z -> bool) : bool :=
  all_u8 (fun x => all_u8 (f x)).

(** Structural equality of two numbers of the float type. *)
Definition same_float (x y : F32.float) : bool :=
  match x, y with
  | S754_zero s, S754_zero s' => Bool.eqb s s'
  | S754_infinity s, S754_infinity s' => Bool.eqb s s'
  | S754_nan, S754_nan => true
  | S754_finite s m e, S754_finite s' m' e' =>
      Bool.eqb s s' && Pos.eqb m m' && Z.eqb e e'
  | _, _ => false
  end.

Definition is_some (o : option Z) (z : Z) : bool :=
  match o with
  | Some y => y =? z
  | None => false
  end.

Definition is_rgb (o : option RgbColor.t) (r g b : Z) : bool :=
  match o with
  | Some c => RgbColor.eqb c (RgbColor.mk r g b)
  | None => false
  end.

(** The six colours whose channels are [v] or 0, in the order of their
    hues: red, yellow, green, cyan, blue, magenta. *)
Definition ramp (k v : Z) : RgbColor.t :=
  match k with
  | 0 => RgbColor.mk v 0 0
  | 1 => RgbColor.mk v v 0
  | 2 => RgbColor.mk 0 v 0
  | 3 => RgbColor.mk 0 v v
  | 4 => RgbColor.mk 0 0 v
  | _ => RgbColor.mk v 0 v
  end.

(** RGB to HSL and back. *)
Definition through_hsl (c : RgbColor.t) : option RgbColor.t :=
  HslToRgb.convertToRgbColor (HslColor.convertToHslColor c).

End Exhaustive.

(** * Properties *)

(** ** Conversions that do nothing on values already in range *)

Section Conversions.

Lemma to_u8_id x : CInt.u8 x -> CInt.to_u8 x = x.
Proof.
  unfold CInt.u8, CInt.to_u8, CInt.wrap. intros Hx.
  apply Z.mod_small. change (2 ^ 8) with 256. lia.
Qed.

Lemma to_u16_id x : CInt.u16 x -> CInt.to_u16 x = x.
Proof.
  unfold CInt.u16, CInt.to_u16, CInt.wrap. intros Hx.
  apply Z.mod_small. change (2 ^ 16) with 65536. lia.
Qed.

Lemma u8_u16 x : CInt.u8 x -> CInt.u16 x.
Proof. unfold CInt.u8, CInt.u16. lia. Qed.

Lemma to_u16_u8 x : CInt.u8 x -> CInt.to_u16 x = x.
Proof. intros Hx. apply to_u16_id, u8_u16, Hx. Qed.

End Conversions.

Create HintDb cint.
#[local] Hint Resolve u8_u16 : cint.
#[local] Hint Unfold CInt.u8 CInt.u16 RgbColor.wf RgbwColor.wf : cint.

(** Closes range side conditions on channel values. *)
Ltac in_range :=
  repeat autounfold with cint in *;
  cbn [RgbColor.R RgbColor.G RgbColor.B
       RgbwColor.R RgbwColor.G RgbwColor.B RgbwColor.W] in *;
  lia.

(** ** Dim *)

Section DimFacts.

Variables value ratio : Z.
Hypothesis Hvalue : CInt.u8 value.
Hypothesis Hratio : CInt.u8 ratio.

(** The product of [_elementDim] needs no more than 16 bits. *)
Lemma dim_product_int_range :
  0 <= value * (ratio + 1) <= 65280.
Proof. unfold CInt.u8 in *. nia. Qed.

Lemma dim_shift_bound : CInt.u8 (Z.shiftr (value * (ratio + 1)) 8).
Proof.
  pose proof dim_product_int_range as Hp.
  rewrite Z.shiftr_div_pow2 by lia. change (2 ^ 8) with 256.
  unfold CInt.u8. split.
  - apply Z.div_pos; lia.
  - assert (value * (ratio + 1) / 256 < 256); [|lia].
    apply Z.div_lt_upper_bound; lia.
Qed.

Lemma elementDim_eq :
  RgbColor._elementDim value ratio = Z.shiftr (value * (ratio + 1)) 8.
Proof.
  unfold RgbColor._elementDim.
  rewrite !to_u16_u8 by assumption.
  apply to_u8_id, dim_shift_bound.
Qed.

End DimFacts.

Lemma elementDim_255 v : CInt.u8 v -> RgbColor._elementDim v 255 = v.
Proof.
  intros Hv. rewrite elementDim_eq by (assumption || (unfold CInt.u8; lia)).
  rewrite Z.shiftr_div_pow2 by lia.
  change (255 + 1) with (2 ^ 8). apply Z.div_mul. discriminate.
Qed.

Lemma elementDim_0 v : CInt.u8 v -> RgbColor._elementDim v 0 = 0.
Proof.
  intros Hv. rewrite elementDim_eq by (assumption || (unfold CInt.u8; lia)).
  rewrite Z.shiftr_div_pow2 by lia. change (2 ^ 8) with 256.
  apply Z.div_small. unfold CInt.u8 in Hv. lia.
Qed.

(** C1, as the description has it, fails: no channel value is changed by
    a dim of ratio 255. *)
Lemma dim_255_changes_no_channel :
  ~ (exists v, CInt.u8 v /\ RgbColor._elementDim v 255 <> v).
Proof.
  intros [v [Hv Hne]]. apply Hne, elementDim_255, Hv.
Qed.

(** C1 (amended): for every RgbColor [c], [c.Dim(255)] is [c] itself, in
    every channel: the scale factor [(255+1)/256] is exactly one. *)
Theorem dim_255_identity (c : RgbColor.t) :
  RgbColor.wf c -> RgbColor.Dim c 255 = c.
Proof.
  destruct c as [r g b]. intros (Hr & Hg & Hb). simpl in *.
  unfold RgbColor.Dim, RgbColor.RgbColor. simpl.
  now rewrite !elementDim_255.
Qed.

Lemma dim_255_identity_witness :
  RgbColor.wf (RgbColor.mk 1 128 255) /\
  RgbColor.Dim (RgbColor.mk 1 128 255) 255 = RgbColor.mk 1 128 255.
Proof.
  split; [in_range | apply (dim_255_identity (RgbColor.mk 1 128 255)); in_range].
Defined.

(** C2: for every RgbColor [c] and ratio [r], each channel of [c.Dim(r)] is
    [(value * (r+1)) >> 8]; the product fits 16 bits, the result is again
    a colour of 8-bit channels, and [c.Dim(0)] is black. *)
Theorem dim_formula (c : RgbColor.t) (r : Z) :
  RgbColor.wf c -> CInt.u8 r ->
  RgbColor.Dim c r =
    RgbColor.mk (Z.shiftr (RgbColor.R c * (r + 1)) 8)
                (Z.shiftr (RgbColor.G c * (r + 1)) 8)
                (Z.shiftr (RgbColor.B c * (r + 1)) 8)
  /\ (RgbColor.R c * (r + 1) < 2 ^ 16 /\
      RgbColor.G c * (r + 1) < 2 ^ 16 /\
      RgbColor.B c * (r + 1) < 2 ^ 16)
  /\ RgbColor.wf (RgbColor.Dim c r)
  /\ RgbColor.Dim c 0 = RgbColor.mk 0 0 0.
Proof.
  destruct c as [cr cg cb]. intros (Hr & Hg & Hb) Hratio. simpl in *.
  unfold RgbColor.Dim, RgbColor.RgbColor, RgbColor.wf. simpl.
  rewrite !elementDim_eq, !elementDim_0 by assumption.
  pose proof (dim_product_int_range cr r Hr Hratio).
  pose proof (dim_product_int_range cg r Hg Hratio).
  pose proof (dim_product_int_range cb r Hb Hratio).
  change (2 ^ 16) with 65536.
  repeat split; try lia; apply dim_shift_bound; assumption.
Qed.

Lemma dim_formula_witness :
  RgbColor.wf (RgbColor.mk 200 100 50) /\ CInt.u8 127 /\
  RgbColor.Dim (RgbColor.mk 200 100 50) 127 = RgbColor.mk 100 50 25 /\
  RgbColor.Dim (RgbColor.mk 200 100 50) 0 = RgbColor.mk 0 0 0.
Proof.
  split; [in_range | split; [in_range | ]].
  split; apply (dim_formula (RgbColor.mk 200 100 50) 127); in_range.
Defined.

(** ** Brighten *)

Section BrightenFacts.

Variables value ratio : Z.
Hypothesis Hvalue : CInt.u8 value.
Hypothesis Hratio : CInt.u8 ratio.

Lemma brighten_quotient_eq :
  RgbColor.brighten_quotient value ratio = (value + 1) * 2 ^ 8 / (ratio + 1).
Proof.
  unfold RgbColor.brighten_quotient.
  rewrite !to_u16_u8 by assumption.
  now rewrite Z.shiftl_mul_pow2 by lia.
Qed.

(** The quotient is at least 1 and at most [2^16], inside [int]. *)
Lemma brighten_quotient_int_range :
  1 <= RgbColor.brighten_quotient value ratio <= 65536.
Proof.
  rewrite brighten_quotient_eq. change (2 ^ 8) with 256.
  unfold CInt.u8 in *. split.
  - apply Z.div_le_lower_bound; lia.
  - apply Z.div_le_upper_bound; nia.
Qed.

(** The quotient fits the 16-bit [element] unless the channel is 255 and
    the ratio 0. *)
Lemma brighten_quotient_fits :
  ~ (value = 255 /\ ratio = 0) ->
  RgbColor.brighten_quotient value ratio <= 65535.
Proof.
  intros Hne. rewrite brighten_quotient_eq. change (2 ^ 8) with 256.
  unfold CInt.u8 in *.
  assert ((value + 1) * 256 / (ratio + 1) < 65536); [|lia].
  apply Z.div_lt_upper_bound; nia.
Qed.

Lemma brighten_element_exact :
  ~ (value = 255 /\ ratio = 0) ->
  RgbColor.brighten_element value ratio = RgbColor.brighten_quotient value ratio.
Proof.
  intros Hne. unfold RgbColor.brighten_element.
  apply to_u16_id. pose proof brighten_quotient_int_range.
  pose proof (brighten_quotient_fits Hne). unfold CInt.u16. lia.
Qed.

Lemma elementBrighten_described :
  RgbColor._elementBrighten value ratio = RgbColor.brighten_described value ratio.
Proof.
  assert (Hcases : (value = 255 /\ ratio = 0) \/ ~ (value = 255 /\ ratio = 0)) by lia.
  destruct Hcases as [[Hv Hr]|Hne].
  - rewrite Hv, Hr. reflexivity.
  - unfold RgbColor._elementBrighten, RgbColor.brighten_described.
    rewrite brighten_element_exact by assumption.
    pose proof brighten_quotient_int_range as Hq.
    rewrite brighten_quotient_eq in *.
    unfold RgbColor.brighten_adjust.
    destruct (Z.gtb_spec ((value + 1) * 2 ^ 8 / (ratio + 1)) 255);
      [reflexivity|].
    rewrite to_u16_id by (unfold CInt.u16; lia).
    apply to_u8_id; unfold CInt.u8; lia.
Qed.

End BrightenFacts.

(** C3, as the description has it, fails at channel 255 and ratio 0: the
    quotient is 65536, the 16-bit [element] holds 0, the clamp is not
    taken, and [element -= 1] wraps around to 65535. *)
Lemma brighten_255_0_wraps :
  RgbColor.brighten_quotient 255 0 = 65536 /\
  RgbColor.brighten_element 255 0 = 0 /\
  (RgbColor.brighten_element 255 0 >? 255) = false /\
  RgbColor.brighten_element 255 0 - 1 < 0 /\
  RgbColor.brighten_adjust (RgbColor.brighten_element 255 0) = 65535 /\
  ~ (forall v r, CInt.u8 v -> CInt.u8 r ->
       RgbColor.brighten_element v r = RgbColor.brighten_quotient v r /\
       1 <= RgbColor.brighten_element v r).
Proof.
  repeat split; try reflexivity.
  intros Hall. destruct (Hall 255 0) as [Heq _]; try in_range.
  discriminate Heq.
Qed.

(** C3 (amended): for every RgbColor [c] and ratio [r], each channel of
    [c.Brighten(r)] is 255 when the quotient [((value+1)<<8) / (r+1)]
    exceeds 255 and the quotient less one otherwise; the quotient is at
    least 1; and, except for a channel of 255 at ratio 0, the 16-bit
    [element] holds the quotient exactly, so that the decrement does not
    wrap. *)
Theorem brighten_formula (c : RgbColor.t) (r : Z) :
  RgbColor.wf c -> CInt.u8 r ->
  RgbColor.Brighten c r =
    RgbColor.mk (RgbColor.brighten_described (RgbColor.R c) r)
                (RgbColor.brighten_described (RgbColor.G c) r)
                (RgbColor.brighten_described (RgbColor.B c) r)
  /\ (forall v, CInt.u8 v -> 1 <= (v + 1) * 2 ^ 8 / (r + 1))
  /\ (forall v, CInt.u8 v -> ~ (v = 255 /\ r = 0) ->
        RgbColor.brighten_element v r = (v + 1) * 2 ^ 8 / (r + 1) /\
        ((RgbColor.brighten_element v r >? 255) = false ->
         RgbColor.brighten_adjust (RgbColor.brighten_element v r) =
           RgbColor.brighten_element v r - 1)).
Proof.
  destruct c as [cr cg cb]. intros (Hr & Hg & Hb) Hratio. simpl in *.
  split; [|split].
  - unfold RgbColor.Brighten, RgbColor.RgbColor. simpl.
    now rewrite !elementBrighten_described.
  - intros v Hv. rewrite <- brighten_quotient_eq by assumption.
    apply brighten_quotient_int_range; assumption.
  - intros v Hv Hne.
    pose proof (brighten_quotient_int_range v r Hv Hratio) as Hq.
    rewrite brighten_element_exact by assumption.
    split; [apply brighten_quotient_eq; assumption|].
    intros Hle. unfold RgbColor.brighten_adjust. rewrite Hle.
    apply to_u16_id. unfold CInt.u16.
    rewrite Z.gtb_ltb in Hle. apply Z.ltb_ge in Hle. lia.
Qed.

Lemma brighten_formula_witness :
  RgbColor.wf (RgbColor.mk 100 0 255) /\ CInt.u8 127 /\
  RgbColor.Brighten (RgbColor.mk 100 0 255) 127 = RgbColor.mk 201 1 255.
Proof.
  split; [in_range | split; [in_range | ]].
  apply (brighten_formula (RgbColor.mk 100 0 255) 127); in_range.
Defined.

(** ** RgbwColor *)

Lemma lighten_channel_saturates x delta :
  CInt.u8 x -> CInt.u8 delta ->
  RgbwColor.lighten_channel x delta = Z.min 255 (x + delta).
Proof.
  intros Hx Hd. unfold RgbwColor.lighten_channel.
  destruct (Z.ltb_spec x (255 - delta)).
  - rewrite to_u8_id by in_range. lia.
  - lia.
Qed.

Lemma IsColorLess_spec (c : RgbwColor.t) :
  RgbwColor.IsColorLess c = true <->
  RgbwColor.R c = 0 /\ RgbwColor.G c = 0 /\ RgbwColor.B c = 0.
Proof.
  unfold RgbwColor.IsColorLess.
  rewrite !andb_true_iff, !Z.eqb_eq. tauto.
Qed.

(** C4: for every RgbwColor [c] and delta [d], [c.Lighten(d)] adds [d] to
    W alone, saturating at 255, when R, G and B are all 0 (they stay 0),
    and otherwise adds [d] to each of R, G and B, saturating at 255, and
    leaves W as it is; so for the two colours of the description. *)
Theorem rgbw_lighten_policy (c : RgbwColor.t) (d : Z) :
  RgbwColor.wf c -> CInt.u8 d ->
  (RgbwColor.R c = 0 /\ RgbwColor.G c = 0 /\ RgbwColor.B c = 0 ->
     RgbwColor.Lighten c d =
       RgbwColor.mk 0 0 0 (Z.min 255 (RgbwColor.W c + d)))
  /\ (~ (RgbwColor.R c = 0 /\ RgbwColor.G c = 0 /\ RgbwColor.B c = 0) ->
     RgbwColor.Lighten c d =
       RgbwColor.mk (Z.min 255 (RgbwColor.R c + d))
                    (Z.min 255 (RgbwColor.G c + d))
                    (Z.min 255 (RgbwColor.B c + d))
                    (RgbwColor.W c))
  /\ RgbwColor.Lighten (RgbwColor.mk 0 0 0 10) 5 = RgbwColor.mk 0 0 0 15
  /\ RgbwColor.Lighten (RgbwColor.mk 10 10 10 0) 5 = RgbwColor.mk 15 15 15 0.
Proof.
  intros (Hr & Hg & Hb & Hw) Hd.
  split; [|split; [|split; reflexivity]].
  - intros Hzero. pose proof (proj2 (IsColorLess_spec c) Hzero) as Hless.
    unfold RgbwColor.Lighten. rewrite Hless.
    destruct Hzero as (-> & -> & ->).
    now rewrite lighten_channel_saturates.
  - intros Hcol. unfold RgbwColor.Lighten.
    destruct (RgbwColor.IsColorLess c) eqn:Hless.
    + apply IsColorLess_spec in Hless. contradiction.
    + now rewrite !lighten_channel_saturates.
Qed.

Lemma rgbw_lighten_policy_witness :
  RgbwColor.wf (RgbwColor.mk 0 0 0 253) /\ CInt.u8 5 /\
  RgbwColor.Lighten (RgbwColor.mk 0 0 0 253) 5 = RgbwColor.mk 0 0 0 255.
Proof.
  split; [in_range | split; [in_range | ]].
  apply (rgbw_lighten_policy (RgbwColor.mk 0 0 0 253) 5); [in_range | in_range | ].
  simpl. repeat split; reflexivity.
Defined.

(** C8: for every RgbwColor [c], [c.CalculateBrightness()] is the larger of
    W and the colour brightness, the colour brightness being the truncated
    average [(R+G+B)/3] that [RgbColor::CalculateBrightness] computes for
    the same three channels; the sum fits the 16-bit accumulator. *)
Theorem rgbw_brightness_max (c : RgbwColor.t) :
  RgbwColor.wf c ->
  RgbwColor.CalculateBrightness c =
    Z.max (RgbColor.CalculateBrightness (RgbwColor.rgb c)) (RgbwColor.W c)
  /\ RgbColor.CalculateBrightness (RgbwColor.rgb c) =
       (RgbwColor.R c + RgbwColor.G c + RgbwColor.B c) / 3
  /\ RgbwColor.R c + RgbwColor.G c + RgbwColor.B c < 2 ^ 16.
Proof.
  destruct c as [r g b w]. intros (Hr & Hg & Hb & Hw).
  unfold RgbwColor.CalculateBrightness, RgbColor.CalculateBrightness. simpl in *.
  rewrite !to_u16_u8 by assumption.
  assert (Havg : 0 <= (r + g + b) / 3 <= 255).
  { unfold CInt.u8 in *. split.
    - apply Z.div_pos; lia.
    - apply Z.div_le_upper_bound; lia. }
  rewrite to_u8_id by exact Havg.
  change (2 ^ 16) with 65536.
  split; [|split; [reflexivity | in_range]].
  destruct (Z.gtb_spec w ((r + g + b) / 3)); lia.
Qed.

Lemma rgbw_brightness_max_witness :
  RgbwColor.wf (RgbwColor.mk 255 255 254 7) /\
  RgbwColor.CalculateBrightness (RgbwColor.mk 255 255 254 7) = 254.
Proof.
  split; [in_range | ].
  apply (rgbw_brightness_max (RgbwColor.mk 255 255 254 7)); in_range.
Defined.

(** C10: an RgbwColor made from one brightness value [b] is [(0,0,0,b)]:
    the value goes to W alone; the RgbColor made from [b] is the gray
    [(b,b,b)], so the two differ in the colour channels unless [b] is 0. *)
Theorem rgbw_brightness_constructor (b : Z) :
  RgbwColor.RgbwColor_brightness b = RgbwColor.mk 0 0 0 b
  /\ RgbwColor.IsColorLess (RgbwColor.RgbwColor_brightness b) = true
  /\ RgbColor.RgbColor_brightness b = RgbColor.mk b b b
  /\ (b <> 0 ->
      RgbwColor.rgb (RgbwColor.RgbwColor_brightness b) <> RgbColor.RgbColor_brightness b).
Proof.
  repeat split. intros Hb Heq. injection Heq as Heq _ _. congruence.
Qed.

(** ** LinearBlend *)

(** C7: for A = RgbColor(10,20,30) and B = RgbColor(200,100,50),
    [LinearBlend(A, B, 0.0)] is A and [LinearBlend(A, B, 1.0)] is B, field
    by field ([operator==] holds), both conversions to [uint8_t] being
    defined. *)
Theorem linear_blend_endpoints :
  let A := RgbColor.RgbColor 10 20 30 in
  let B := RgbColor.RgbColor 200 100 50 in
  RgbColor.LinearBlend A B F32.zero = Some A /\
  RgbColor.LinearBlend A B F32.one = Some B /\
  RgbColor.eqb A A = true /\ RgbColor.eqb B B = true.
Proof.
  cbv zeta. repeat split; vm_compute; reflexivity.
Qed.

(** ** RGB to HSL *)

Lemma hsl_achromatic_branch (c : RgbColor.t) :
  let r := HslColor.normalized (RgbColor.R c) in
  let g := HslColor.normalized (RgbColor.G c) in
  let b := HslColor.normalized (RgbColor.B c) in
  let max := HslColor.channel_max r g b in
  let min := HslColor.channel_min r g b in
  F32.eqb max min = true ->
  HslColor.convertToHslColor c =
    HslColor.mk F32.zero F32.zero (F32.div (F32.add max min) F32.two).
Proof.
  intros r g b max min Heq. unfold HslColor.convertToHslColor.
  fold r g b. fold max min. now rewrite Heq.
Qed.

(** C9: black converts to H = 0, S = 0, L = 0; white converts to H = 0,
    S = 0, L = 1.0; and whenever the largest and the smallest normalized
    channel compare equal, H and S are 0 and L is [(max + min) / 2]. *)
Theorem hsl_achromatic_fixed_points :
  HslColor.convertToHslColor (RgbColor.mk 0 0 0) =
    HslColor.mk F32.zero F32.zero F32.zero
  /\ HslColor.convertToHslColor (RgbColor.mk 255 255 255) =
    HslColor.mk F32.zero F32.zero F32.one
  /\ forall c : RgbColor.t,
      let r := HslColor.normalized (RgbColor.R c) in
      let g := HslColor.normalized (RgbColor.G c) in
      let b := HslColor.normalized (RgbColor.B c) in
      let max := HslColor.channel_max r g b in
      let min := HslColor.channel_min r g b in
      F32.eqb max min = true ->
      HslColor.H (HslColor.convertToHslColor c) = F32.zero /\
      HslColor.S (HslColor.convertToHslColor c) = F32.zero /\
      HslColor.L (HslColor.convertToHslColor c) = F32.div (F32.add max min) F32.two.
Proof.
  split; [vm_compute; reflexivity | split; [vm_compute; reflexivity | ]].
  intros c r g b max min Heq.
  rewrite (hsl_achromatic_branch c Heq). repeat split.
Qed.

Lemma hsl_achromatic_fixed_points_witness :
  HslColor.H (HslColor.convertToHslColor (RgbColor.mk 128 128 128)) = F32.zero /\
  HslColor.S (HslColor.convertToHslColor (RgbColor.mk 128 128 128)) = F32.zero.
Proof.
  destruct hsl_achromatic_fixed_points as (_ & _ & Hgray).
  destruct (Hgray (RgbColor.mk 128 128 128)) as (HH & HS & _).
  - vm_compute. reflexivity.
  - split; [exact HH | exact HS].
Defined.

(** ** Rounding in binary32

    Facts on the rounding of [SpecFloat]: a right shift of the mantissa
    divides it by a power of two, and a positive mantissa whose exponent
    is not too far below the smallest one is never rounded to zero. *)

Lemma digits2_bounds (p : positive) :
  2 ^ (Zpos (digits2_pos p) - 1) <= Zpos p < 2 ^ Zpos (digits2_pos p).
Proof.
  induction p as [p IH|p IH|]; cbn [digits2_pos].
  - rewrite Pos2Z.inj_succ.
    replace (Z.succ (Zpos (digits2_pos p)) - 1) with (Z.succ (Zpos (digits2_pos p) - 1)) by lia.
    rewrite !Z.pow_succ_r by lia. lia.
  - rewrite Pos2Z.inj_succ.
    replace (Z.succ (Zpos (digits2_pos p)) - 1) with (Z.succ (Zpos (digits2_pos p) - 1)) by lia.
    rewrite !Z.pow_succ_r by lia. lia.
  - cbn. lia.
Qed.

Lemma shr_1_m mrs : 0 <= shr_m mrs -> shr_m (shr_1 mrs) = shr_m mrs / 2.
Proof.
  destruct mrs as [m r s]. cbn [shr_m]. intros Hm.
  destruct m as [|p|p]; [reflexivity| |lia].
  destruct p as [p|p|]; cbn [shr_1 shr_m].
  - apply Z.div_unique with 1; lia.
  - apply Z.div_unique with 0; lia.
  - reflexivity.
Qed.

Lemma shr_iter_m (n : positive) : forall mrs,
  0 <= shr_m mrs -> shr_m (iter_pos shr_1 n mrs) = shr_m mrs / 2 ^ Zpos n.
Proof.
  induction n as [n IH|n IH|]; intros mrs Hm; cbn [iter_pos].
  - assert (H1 : 0 <= shr_m (shr_1 mrs)).
    { rewrite shr_1_m by assumption. apply Z.div_pos; lia. }
    assert (H2 : 0 <= shr_m (iter_pos shr_1 n (shr_1 mrs))).
    { rewrite IH by assumption. apply Z.div_pos; [assumption | apply Z.pow_pos_nonneg; lia]. }
    rewrite IH, IH, shr_1_m by assumption.
    rewrite !Z.div_div by (try apply Z.pow_pos_nonneg; lia).
    f_equal. replace (Zpos n~1) with (1 + Zpos n + Zpos n) by lia.
    rewrite !Z.pow_add_r by lia. lia.
  - assert (H2 : 0 <= shr_m (iter_pos shr_1 n mrs)).
    { rewrite IH by assumption. apply Z.div_pos; [assumption | apply Z.pow_pos_nonneg; lia]. }
    rewrite IH, IH by assumption.
    rewrite !Z.div_div by (try apply Z.pow_pos_nonneg; lia).
    f_equal. replace (Zpos n~0) with (Zpos n + Zpos n) by lia.
    rewrite Z.pow_add_r by lia. lia.
  - rewrite shr_1_m by assumption. reflexivity.
Qed.

Lemma shr_record_of_loc_m m l : shr_m (shr_record_of_loc m l) = m.
Proof. destruct l as [|[ | | ]]; reflexivity. Qed.

Lemma round_nearest_even_ge m l : m <= round_nearest_even m l.
Proof.
  destruct l as [|[ | | ]]; cbn [round_nearest_even]; try lia.
  destruct (Z.even m); lia.
Qed.

Section Binary32.

Let prec := F32.prec.
Let emax := F32.emax.

Lemma fexp32 e : fexp prec emax e = Z.max (e - 24) (-149).
Proof. reflexivity. Qed.

Lemma shr_fexp_positive m e l :
  0 < m -> (-149 <= e \/ 2 ^ (-149 - e) <= m) ->
  0 < shr_m (fst (shr_fexp prec emax m e l)) /\ -149 <= snd (shr_fexp prec emax m e l).
Proof.
  intros Hm He. unfold shr_fexp, shr. rewrite fexp32.
  destruct m as [|p|p]; try lia. cbn [Zdigits2].
  pose proof (digits2_bounds p) as Hd.
  set (d := Zpos (digits2_pos p)) in *.
  destruct (Z.max (d + e - 24) (-149) - e) as [|n|n] eqn:Hn; cbn [fst snd].
  - rewrite shr_record_of_loc_m. lia.
  - rewrite shr_iter_m by (rewrite shr_record_of_loc_m; lia).
    rewrite shr_record_of_loc_m. split; [|lia].
    apply Z.div_str_pos. split; [apply Z.pow_pos_nonneg; lia|].
    destruct (Z.max_spec (d + e - 24) (-149)) as [[_ Hmax]|[_ Hmax]].
    + destruct He as [He|He]; [lia|].
      replace (Z.pos n) with (-149 - e) by lia. exact He.
    + apply Z.le_trans with (2 ^ (d - 1)); [|lia].
      apply Z.pow_le_mono_r; lia.
  - rewrite shr_record_of_loc_m. lia.
Qed.

Lemma binary_round_aux_nonzero sx mx ex lx :
  0 < mx -> (-149 <= ex \/ 2 ^ (-149 - ex) <= mx) ->
  (exists m e, binary_round_aux prec emax sx mx ex lx = S754_finite sx m e)
  \/ binary_round_aux prec emax sx mx ex lx = S754_infinity sx.
Proof.
  intros Hm He. unfold binary_round_aux.
  pose proof (shr_fexp_positive mx ex lx Hm He) as [H1 H1'].
  destruct (shr_fexp prec emax mx ex lx) as [mrs' e']. cbn [fst snd] in *.
  pose proof (round_nearest_even_ge (shr_m mrs') (loc_of_shr_record mrs')) as Hr.
  set (m1 := round_nearest_even (shr_m mrs') (loc_of_shr_record mrs')) in *.
  assert (Hm1 : 0 < m1) by lia.
  pose proof (shr_fexp_positive m1 e' loc_Exact Hm1 (or_introl H1')) as [H2 _].
  destruct (shr_fexp prec emax m1 e' loc_Exact) as [mrs'' e'']. cbn [fst snd] in *.
  destruct (shr_m mrs'') as [|m|m]; try lia.
  destruct (e'' <=? emax - prec); [left; eauto | right; reflexivity].
Qed.

Lemma bounded_exponent m e : bounded prec emax m e = true -> -149 <= e.
Proof.
  unfold bounded, canonical_mantissa. rewrite andb_true_iff, Z.eqb_eq, fexp32.
  lia.
Qed.

(** The product of a nonzero number of the type with [100000.f] is never
    rounded to zero. *)
Lemma mul_100000_nonzero m e :
  bounded prec emax m e = true ->
  (exists m' e', F32.mul (S754_finite false m e) F32.f100000 = S754_finite false m' e')
  \/ F32.mul (S754_finite false m e) F32.f100000 = S754_infinity false.
Proof.
  intros Hb. apply bounded_exponent in Hb.
  unfold F32.mul, F32.f100000, SFmul. cbn [xorb].
  apply binary_round_aux_nonzero; [lia | right].
  apply Z.le_trans with (2 ^ 7).
  - apply Z.pow_le_mono_r; lia.
  - change (2 ^ 7) with 128. lia.
Qed.

End Binary32.




(** ** The achromatic check of the HSB to RGB conversion *)

(** Against the constant [0.0f] the tolerance of [fuzzyCompare] is zero:
    the check holds exactly for the two zeros. *)
Lemma fuzzyCompare_against_zero (s : F32.float) :
  F32.valid s = true ->
  RgbColor.fuzzyCompare s F32.zero = F32.eqb s F32.zero.
Proof.
  intros Hvalid. destruct s as [sg|sg| |sg m e].
  - destruct sg; reflexivity.
  - destruct sg; reflexivity.
  - reflexivity.
  - unfold RgbColor.fuzzyCompare.
    change (F32.abs (F32.sub (S754_finite sg m e) F32.zero))
      with (S754_finite false m e).
    change (F32.min (F32.abs (S754_finite sg m e)) (F32.abs F32.zero))
      with F32.zero.
    destruct (mul_100000_nonzero m e Hvalid) as [(m' & e' & ->) | ->];
      destruct sg; reflexivity.
Qed.

(** No saturation other than zero passes the achromatic check. *)
Lemma no_nonzero_saturation_is_achromatic :
  ~ (exists s : F32.float,
       F32.valid s = true /\ F32.eqb s F32.zero = false /\
       RgbColor.fuzzyCompare s F32.zero = true).
Proof.
  intros (s & Hvalid & Hne & Hfuzzy).
  rewrite fuzzyCompare_against_zero in Hfuzzy by assumption. congruence.
Qed.

(** C5 (the code at the failing input): the achromatic check is written
    as a tolerance comparison, [|S - 0| * 100000 <= min(|S|, |0|)], but
    against 0 its tolerance is 0.  The smallest positive saturation,
    [2^-149], is not classified as achromatic, and [10^-6] is not either;
    for every saturation of the type the check gives what the exact
    comparison [S == 0.0f] gives. *)
Theorem achromatic_check_has_no_tolerance :
  let tiny := S754_finite false 1 (-149) in
  let millionth := F32.div F32.one (F32.of_Z 1000000) in
  (F32.valid tiny = true /\ F32.eqb tiny F32.zero = false /\
   RgbColor.fuzzyCompare tiny F32.zero = false)
  /\ (F32.valid millionth = true /\ F32.eqb millionth F32.zero = false /\
      RgbColor.fuzzyCompare millionth F32.zero = false)
  /\ (forall s : F32.float,
        F32.valid s = true ->
        RgbColor.fuzzyCompare s F32.zero = F32.eqb s F32.zero).
Proof.
  cbv zeta. split; [|split].
  - repeat split; vm_compute; reflexivity.
  - repeat split; vm_compute; reflexivity.
  - exact fuzzyCompare_against_zero.
Qed.

(** ** The hue of the HSB to RGB conversion *)






(** *** One subtraction or addition of 1 on a hue far from [0,1)

    The sum and the difference are computed on mantissas aligned to the
    exponent of 1.0; when the result needs no shift it is exact. *)













(** * Further properties of the colour objects *)

(** ** Darken and Lighten of RgbColor *)

Lemma rgb_darken_channel_saturates x delta :
  CInt.u8 x -> CInt.u8 delta ->
  RgbColor.darken_channel x delta = Z.max 0 (x - delta).
Proof.
  intros Hx Hd. unfold RgbColor.darken_channel.
  destruct (Z.gtb_spec x delta).
  - rewrite to_u8_id by in_range. lia.
  - lia.
Qed.

Lemma rgb_lighten_channel_saturates x delta :
  CInt.u8 x -> CInt.u8 delta ->
  RgbColor.lighten_channel x delta = Z.min 255 (x + delta).
Proof.
  intros Hx Hd. unfold RgbColor.lighten_channel.
  destruct (Z.ltb_spec x (255 - delta)).
  - rewrite to_u8_id by in_range. lia.
  - lia.
Qed.

Lemma rgb_mk_eq_iff r g b r' g' b' :
  RgbColor.mk r g b = RgbColor.mk r' g' b' <-> r = r' /\ g = g' /\ b = b'.
Proof.
  split.
  - intros Heq.
    pose proof (f_equal RgbColor.R Heq). pose proof (f_equal RgbColor.G Heq).
    pose proof (f_equal RgbColor.B Heq). auto.
  - intros (-> & -> & ->). reflexivity.
Qed.

Lemma rgb_darken_channel_u8 x delta :
  CInt.u8 x -> CInt.u8 delta -> CInt.u8 (RgbColor.darken_channel x delta).
Proof. intros Hx Hd. rewrite rgb_darken_channel_saturates by assumption. in_range. Qed.

Lemma rgb_lighten_channel_u8 x delta :
  CInt.u8 x -> CInt.u8 delta -> CInt.u8 (RgbColor.lighten_channel x delta).
Proof. intros Hx Hd. rewrite rgb_lighten_channel_saturates by assumption. in_range. Qed.

(** [saturate] rewrites the channels of [Darken] and [Lighten] into [Z.max]
    and [Z.min]; [channel_range] closes the range conditions on the way. *)
Ltac channel_range :=
  first [ in_range
        | apply rgb_darken_channel_u8; in_range
        | apply rgb_lighten_channel_u8; in_range ].

Ltac saturate :=
  rewrite ?rgb_darken_channel_saturates, ?rgb_lighten_channel_saturates
    by channel_range.

(** X1: [Darken] subtracts the delta from every channel and stops at 0
    (no wrap-around); the result is again a colour of 8-bit channels. *)
Theorem rgb_darken_saturates (c : RgbColor.t) (d : Z) :
  RgbColor.wf c -> CInt.u8 d ->
  RgbColor.Darken c d =
    RgbColor.mk (Z.max 0 (RgbColor.R c - d)) (Z.max 0 (RgbColor.G c - d))
                (Z.max 0 (RgbColor.B c - d))
  /\ RgbColor.wf (RgbColor.Darken c d).
Proof.
  destruct c as [r g b]. intros Hc Hd.
  unfold RgbColor.Darken. cbn [RgbColor.R RgbColor.G RgbColor.B].
  saturate. split; [reflexivity | in_range].
Qed.

Lemma rgb_darken_saturates_witness :
  RgbColor.wf (RgbColor.mk 200 100 50) /\ CInt.u8 60 /\
  RgbColor.Darken (RgbColor.mk 200 100 50) 60 = RgbColor.mk 140 40 0.
Proof.
  split; [in_range | split; [in_range | ]].
  apply (rgb_darken_saturates (RgbColor.mk 200 100 50) 60); in_range.
Defined.

(** X2: [Lighten] adds the delta to every channel and stops at 255 (no
    wrap-around); the result is again a colour of 8-bit channels. *)
Theorem rgb_lighten_saturates (c : RgbColor.t) (d : Z) :
  RgbColor.wf c -> CInt.u8 d ->
  RgbColor.Lighten c d =
    RgbColor.mk (Z.min 255 (RgbColor.R c + d)) (Z.min 255 (RgbColor.G c + d))
                (Z.min 255 (RgbColor.B c + d))
  /\ RgbColor.wf (RgbColor.Lighten c d).
Proof.
  destruct c as [r g b]. intros Hc Hd.
  unfold RgbColor.Lighten. cbn [RgbColor.R RgbColor.G RgbColor.B].
  saturate. split; [reflexivity | in_range].
Qed.

Lemma rgb_lighten_saturates_witness :
  RgbColor.wf (RgbColor.mk 200 100 50) /\ CInt.u8 60 /\
  RgbColor.Lighten (RgbColor.mk 200 100 50) 60 = RgbColor.mk 255 160 110.
Proof.
  split; [in_range | split; [in_range | ]].
  apply (rgb_lighten_saturates (RgbColor.mk 200 100 50) 60); in_range.
Defined.

(** X3: [Lighten] followed by [Darken] with the same delta caps every
    channel at [255 - delta], and [Darken] followed by [Lighten] raises
    every channel to at least [delta]; so the first gives the colour back
    exactly when no channel exceeds [255 - delta], the second exactly when
    no channel is below [delta]. *)
Theorem rgb_lighten_darken_round_trip (c : RgbColor.t) (d : Z) :
  RgbColor.wf c -> CInt.u8 d ->
  RgbColor.Darken (RgbColor.Lighten c d) d =
    RgbColor.mk (Z.min (RgbColor.R c) (255 - d)) (Z.min (RgbColor.G c) (255 - d))
                (Z.min (RgbColor.B c) (255 - d))
  /\ RgbColor.Lighten (RgbColor.Darken c d) d =
    RgbColor.mk (Z.max (RgbColor.R c) d) (Z.max (RgbColor.G c) d)
                (Z.max (RgbColor.B c) d)
  /\ (RgbColor.Darken (RgbColor.Lighten c d) d = c <->
      RgbColor.R c <= 255 - d /\ RgbColor.G c <= 255 - d /\ RgbColor.B c <= 255 - d)
  /\ (RgbColor.Lighten (RgbColor.Darken c d) d = c <->
      d <= RgbColor.R c /\ d <= RgbColor.G c /\ d <= RgbColor.B c).
Proof.
  destruct c as [r g b]. intros Hc Hd.
  unfold RgbColor.Darken, RgbColor.Lighten. cbn [RgbColor.R RgbColor.G RgbColor.B].
  saturate. saturate.
  assert (H1 : forall x, CInt.u8 x -> Z.max 0 (Z.min 255 (x + d) - d) = Z.min x (255 - d))
    by (intros; in_range).
  assert (H2 : forall x, CInt.u8 x -> Z.min 255 (Z.max 0 (x - d) + d) = Z.max x d)
    by (intros; in_range).
  rewrite !H1, !H2 by in_range.
  split; [reflexivity | split; [reflexivity | split]].
  all: rewrite rgb_mk_eq_iff; in_range.
Qed.

Lemma rgb_lighten_darken_round_trip_witness :
  RgbColor.wf (RgbColor.mk 200 100 50) /\ CInt.u8 60 /\
  RgbColor.Darken (RgbColor.Lighten (RgbColor.mk 200 100 50) 60) 60 =
    RgbColor.mk 195 100 50.
Proof.
  split; [in_range | split; [in_range | ]].
  apply (rgb_lighten_darken_round_trip (RgbColor.mk 200 100 50) 60); in_range.
Defined.

(** X4: two [Darken]s in a row are one [Darken] by the sum of the deltas,
    and likewise for [Lighten], as long as the sum is itself a delta
    (at most 255). *)
Theorem rgb_darken_lighten_additive (c : RgbColor.t) (d1 d2 : Z) :
  RgbColor.wf c -> CInt.u8 d1 -> CInt.u8 d2 -> d1 + d2 <= 255 ->
  RgbColor.Darken (RgbColor.Darken c d1) d2 = RgbColor.Darken c (d1 + d2)
  /\ RgbColor.Lighten (RgbColor.Lighten c d1) d2 = RgbColor.Lighten c (d1 + d2).
Proof.
  destruct c as [r g b]. intros Hc Hd1 Hd2 Hsum.
  unfold RgbColor.Darken, RgbColor.Lighten. cbn [RgbColor.R RgbColor.G RgbColor.B].
  saturate. saturate. split; f_equal; in_range.
Qed.

Lemma rgb_darken_lighten_additive_witness :
  RgbColor.wf (RgbColor.mk 200 100 50) /\ CInt.u8 60 /\ CInt.u8 70 /\ 60 + 70 <= 255 /\
  RgbColor.Darken (RgbColor.Darken (RgbColor.mk 200 100 50) 60) 70 =
    RgbColor.Darken (RgbColor.mk 200 100 50) 130.
Proof.
  repeat (split; [in_range | ]).
  apply (rgb_darken_lighten_additive (RgbColor.mk 200 100 50) 60 70); in_range.
Defined.

(** ** Order properties of Dim and Brighten *)

Lemma brighten_described_clamp v r :
  CInt.u8 v -> CInt.u8 r ->
  RgbColor._elementBrighten v r = Z.min 255 ((v + 1) * 256 / (r + 1) - 1).
Proof.
  intros Hv Hr. rewrite elementBrighten_described by assumption.
  unfold RgbColor.brighten_described. change (2 ^ 8) with 256.
  destruct (Z.gtb_spec ((v + 1) * 256 / (r + 1)) 255); lia.
Qed.

Lemma elementDim_div v r :
  CInt.u8 v -> CInt.u8 r -> RgbColor._elementDim v r = v * (r + 1) / 256.
Proof.
  intros Hv Hr. rewrite elementDim_eq by assumption.
  now rewrite Z.shiftr_div_pow2 by lia.
Qed.

(** X5: a dimmed channel never exceeds the channel itself, and dimming
    keeps the order of channels and of ratios: a larger channel or a
    larger ratio never gives a smaller result. *)
Theorem elementDim_monotone (v v' r r' : Z) :
  CInt.u8 v -> CInt.u8 v' -> CInt.u8 r -> CInt.u8 r' ->
  v <= v' -> r <= r' ->
  RgbColor._elementDim v r <= RgbColor._elementDim v' r'
  /\ RgbColor._elementDim v r <= v.
Proof.
  intros Hv Hv' Hr Hr' Hle Hler.
  rewrite !elementDim_div by assumption. unfold CInt.u8 in *. split.
  - apply Z.div_le_mono; nia.
  - apply Z.div_le_upper_bound; nia.
Qed.

Lemma elementDim_monotone_witness :
  CInt.u8 100 /\ CInt.u8 200 /\ CInt.u8 63 /\ CInt.u8 127 /\ 100 <= 200 /\ 63 <= 127 /\
  RgbColor._elementDim 100 63 <= RgbColor._elementDim 200 127.
Proof.
  repeat (split; [in_range | ]).
  apply (elementDim_monotone 100 200 63 127); in_range.
Defined.

Lemma elementBrighten_range v r :
  CInt.u8 v -> CInt.u8 r -> v <= RgbColor._elementBrighten v r <= 255.
Proof.
  intros Hv Hr. rewrite brighten_described_clamp by assumption.
  unfold CInt.u8 in *.
  assert (Hq : v + 1 <= (v + 1) * 256 / (r + 1))
    by (apply Z.div_le_lower_bound; nia).
  lia.
Qed.

Lemma elementBrighten_255 v : CInt.u8 v -> RgbColor._elementBrighten v 255 = v.
Proof.
  intros Hv. rewrite brighten_described_clamp by (assumption || in_range).
  change (255 + 1) with 256. rewrite Z.div_mul by lia. in_range.
Qed.

Lemma elementBrighten_0 v : CInt.u8 v -> RgbColor._elementBrighten v 0 = 255.
Proof.
  intros Hv. rewrite brighten_described_clamp by (assumption || in_range).
  change (0 + 1) with 1. rewrite Z.div_1_r. in_range.
Qed.

(** X6: a brightened channel is never below the channel itself and never
    above 255; a larger channel or a smaller ratio never gives a smaller
    result; ratio 255 gives the colour back and ratio 0 gives white. *)
Theorem elementBrighten_monotone (v v' r r' : Z) :
  CInt.u8 v -> CInt.u8 v' -> CInt.u8 r -> CInt.u8 r' ->
  v <= v' -> r' <= r ->
  RgbColor._elementBrighten v r <= RgbColor._elementBrighten v' r'
  /\ v <= RgbColor._elementBrighten v r <= 255
  /\ RgbColor._elementBrighten v 255 = v
  /\ RgbColor._elementBrighten v 0 = 255.
Proof.
  intros Hv Hv' Hr Hr' Hle Hler.
  split; [|split; [apply elementBrighten_range; assumption|
           split; [apply elementBrighten_255 | apply elementBrighten_0]; assumption]].
  rewrite !brighten_described_clamp by assumption.
  unfold CInt.u8 in *.
  assert (Hmono : (v + 1) * 256 / (r + 1) <= (v' + 1) * 256 / (r' + 1)).
  { apply Z.le_trans with ((v + 1) * 256 / (r' + 1)).
    - apply Z.div_le_compat_l; lia.
    - apply Z.div_le_mono; lia. }
  lia.
Qed.

Lemma elementBrighten_monotone_witness :
  CInt.u8 100 /\ CInt.u8 200 /\ CInt.u8 127 /\ CInt.u8 63 /\ 100 <= 200 /\ 63 <= 127 /\
  RgbColor._elementBrighten 100 127 <= RgbColor._elementBrighten 200 63.
Proof.
  repeat (split; [in_range | ]).
  apply (elementBrighten_monotone 100 200 127 63); in_range.
Defined.





(** ** Dim, Brighten and Darken of RgbwColor *)

Lemma rgbw_elementDim_same v r :
  RgbwColor._elementDim v r = RgbColor._elementDim v r.
Proof. reflexivity. Qed.

Lemma rgbw_elementBrighten_same v r :
  RgbwColor._elementBrighten v r = RgbColor._elementBrighten v r.
Proof. reflexivity. Qed.

Lemma rgbw_darken_channel_same x d :
  RgbwColor.darken_channel x d = RgbColor.darken_channel x d.
Proof. reflexivity. Qed.

Lemma rgbw_lighten_channel_same x d :
  RgbwColor.lighten_channel x d = RgbColor.lighten_channel x d.
Proof. reflexivity. Qed.

(** X8: [Dim] and [Brighten] of an RgbwColor treat the colour part as
    those of RgbColor do and W in the same way; ratio 255 gives the colour
    back, [Dim(0)] gives (0,0,0,0) and [Brighten(0)] gives
    (255,255,255,255). *)
Theorem rgbw_dim_brighten (c : RgbwColor.t) (r : Z) :
  RgbwColor.wf c -> CInt.u8 r ->
  RgbwColor.rgb (RgbwColor.Dim c r) = RgbColor.Dim (RgbwColor.rgb c) r
  /\ RgbwColor.W (RgbwColor.Dim c r) = RgbwColor.W c * (r + 1) / 256
  /\ RgbwColor.rgb (RgbwColor.Brighten c r) = RgbColor.Brighten (RgbwColor.rgb c) r
  /\ RgbwColor.W (RgbwColor.Brighten c r) =
       Z.min 255 ((RgbwColor.W c + 1) * 256 / (r + 1) - 1)
  /\ RgbwColor.Dim c 255 = c
  /\ RgbwColor.Brighten c 255 = c
  /\ RgbwColor.Dim c 0 = RgbwColor.mk 0 0 0 0
  /\ RgbwColor.Brighten c 0 = RgbwColor.mk 255 255 255 255.
Proof.
  destruct c as [cr cg cb cw]. intros (Hr & Hg & Hb & Hw) Hratio.
  cbn [RgbwColor.R RgbwColor.G RgbwColor.B RgbwColor.W] in *.
  unfold RgbwColor.Dim, RgbwColor.Brighten.
  cbn [RgbwColor.R RgbwColor.G RgbwColor.B RgbwColor.W].
  change RgbwColor._elementDim with RgbColor._elementDim.
  change RgbwColor._elementBrighten with RgbColor._elementBrighten.
  rewrite !elementDim_255, !elementDim_0 by assumption.
  rewrite !elementBrighten_255, !elementBrighten_0 by assumption.
  repeat split.
  - apply elementDim_div; assumption.
  - apply brighten_described_clamp; assumption.
Qed.

Lemma rgbw_dim_brighten_witness :
  RgbwColor.wf (RgbwColor.mk 200 100 50 255) /\ CInt.u8 127 /\
  RgbwColor.W (RgbwColor.Dim (RgbwColor.mk 200 100 50 255) 127) = 127.
Proof.
  split; [in_range | split; [in_range | ]].
  apply (rgbw_dim_brighten (RgbwColor.mk 200 100 50 255) 127); in_range.
Defined.

(** X9: [Darken] of an RgbwColor subtracts the delta from all four
    channels, W included, stopping at 0.  It therefore does not undo
    [Lighten]: after [Lighten] and [Darken] with the same delta a colour
    with some red, green or blue has its W lowered (and its colour
    channels capped at [255 - delta]), whereas a colour without has only
    W capped. *)
Theorem rgbw_darken_after_lighten (c : RgbwColor.t) (d : Z) :
  RgbwColor.wf c -> CInt.u8 d ->
  RgbwColor.Darken c d =
    RgbwColor.mk (Z.max 0 (RgbwColor.R c - d)) (Z.max 0 (RgbwColor.G c - d))
                 (Z.max 0 (RgbwColor.B c - d)) (Z.max 0 (RgbwColor.W c - d))
  /\ (RgbwColor.IsColorLess c = false ->
      RgbwColor.Darken (RgbwColor.Lighten c d) d =
        RgbwColor.mk (Z.min (RgbwColor.R c) (255 - d)) (Z.min (RgbwColor.G c) (255 - d))
                     (Z.min (RgbwColor.B c) (255 - d)) (Z.max 0 (RgbwColor.W c - d)))
  /\ (RgbwColor.IsColorLess c = true ->
      RgbwColor.Darken (RgbwColor.Lighten c d) d =
        RgbwColor.mk 0 0 0 (Z.min (RgbwColor.W c) (255 - d))).
Proof.
  destruct c as [cr cg cb cw]. intros Hc Hd.
  unfold RgbwColor.Darken, RgbwColor.Lighten.
  split; [|split]; intros; try match goal with H : _ = _ |- _ => rewrite H end.
  all: cbn [RgbwColor.R RgbwColor.G RgbwColor.B RgbwColor.W].
  all: change RgbwColor.darken_channel with RgbColor.darken_channel.
  all: change RgbwColor.lighten_channel with RgbColor.lighten_channel.
  all: saturate; saturate.
  - reflexivity.
  - f_equal; in_range.
  - match goal with H : RgbwColor.IsColorLess _ = true |- _ =>
      apply IsColorLess_spec in H; cbn in H; destruct H as (-> & -> & ->) end.
    f_equal; in_range.
Qed.

Lemma rgbw_darken_after_lighten_witness :
  RgbwColor.wf (RgbwColor.mk 10 20 30 40) /\ CInt.u8 5 /\
  RgbwColor.Darken (RgbwColor.Lighten (RgbwColor.mk 10 20 30 40) 5) 5 =
    RgbwColor.mk 10 20 30 35.
Proof.
  split; [in_range | split; [in_range | ]].
  apply (rgbw_darken_after_lighten (RgbwColor.mk 10 20 30 40) 5);
    [in_range | in_range | reflexivity].
Defined.

(** ** Classification and comparison *)

Lemma IsMonotone_spec (c : RgbwColor.t) :
  RgbwColor.IsMonotone c = true <->
  RgbwColor.R c = RgbwColor.G c /\ RgbwColor.G c = RgbwColor.B c.
Proof.
  unfold RgbwColor.IsMonotone. rewrite andb_true_iff, !Z.eqb_eq. lia.
Qed.

(** X10: a colour without red, green and blue is monotone; [Lighten] never
    changes whether a colour is colourless, and [Lighten], [Darken], [Dim]
    and [Brighten] all keep a monotone colour monotone. *)
Theorem rgbw_classes_preserved (c : RgbwColor.t) (d : Z) :
  RgbwColor.wf c -> CInt.u8 d ->
  (RgbwColor.IsColorLess c = true -> RgbwColor.IsMonotone c = true)
  /\ RgbwColor.IsColorLess (RgbwColor.Lighten c d) = RgbwColor.IsColorLess c
  /\ (RgbwColor.IsMonotone c = true ->
      RgbwColor.IsMonotone (RgbwColor.Lighten c d) = true /\
      RgbwColor.IsMonotone (RgbwColor.Darken c d) = true /\
      RgbwColor.IsMonotone (RgbwColor.Dim c d) = true /\
      RgbwColor.IsMonotone (RgbwColor.Brighten c d) = true).
Proof.
  destruct c as [cr cg cb cw]. intros Hc Hd. split; [|split].
  - rewrite IsColorLess_spec, IsMonotone_spec. cbn. lia.
  - unfold RgbwColor.Lighten.
    destruct (RgbwColor.IsColorLess (RgbwColor.mk cr cg cb cw)) eqn:Hless.
    + exact Hless.
    + apply not_true_iff_false. apply not_true_iff_false in Hless.
      rewrite IsColorLess_spec in *.
      cbn [RgbwColor.R RgbwColor.G RgbwColor.B RgbwColor.W] in *.
      rewrite !lighten_channel_saturates by in_range. in_range.
  - rewrite IsMonotone_spec. cbn [RgbwColor.R RgbwColor.G RgbwColor.B].
    intros (-> & ->). unfold RgbwColor.Lighten.
    destruct (RgbwColor.IsColorLess (RgbwColor.mk cb cb cb cw));
      rewrite !IsMonotone_spec; cbn; auto.
Qed.

Lemma rgbw_classes_preserved_witness :
  RgbwColor.wf (RgbwColor.mk 5 5 5 0) /\ CInt.u8 251 /\
  RgbwColor.IsColorLess (RgbwColor.Lighten (RgbwColor.mk 5 5 5 0) 251) = false.
Proof.
  split; [in_range | split; [in_range | ]].
  apply (rgbw_classes_preserved (RgbwColor.mk 5 5 5 0) 251); in_range.
Defined.

(** ** Brightness *)

(** X12: the brightness of an RgbColor lies between its smallest and its
    largest channel; the gray made from one brightness value has that
    brightness, and so has the RgbwColor made from one brightness value
    (through its W channel). *)
Theorem brightness_bounds (c : RgbColor.t) (b : Z) :
  RgbColor.wf c -> CInt.u8 b ->
  Z.min (RgbColor.R c) (Z.min (RgbColor.G c) (RgbColor.B c))
    <= RgbColor.CalculateBrightness c
    <= Z.max (RgbColor.R c) (Z.max (RgbColor.G c) (RgbColor.B c))
  /\ RgbColor.CalculateBrightness (RgbColor.RgbColor_brightness b) = b
  /\ RgbwColor.CalculateBrightness (RgbwColor.RgbwColor_brightness b) = b.
Proof.
  destruct c as [r g bl]. intros (Hr & Hg & Hb) Hbr.
  cbn [RgbColor.R RgbColor.G RgbColor.B] in *.
  unfold RgbColor.CalculateBrightness, RgbwColor.CalculateBrightness,
    RgbColor.RgbColor_brightness, RgbwColor.RgbwColor_brightness.
  cbn [RgbColor.R RgbColor.G RgbColor.B
       RgbwColor.R RgbwColor.G RgbwColor.B RgbwColor.W].
  rewrite !to_u16_u8 by (assumption || in_range).
  unfold CInt.u8 in *.
  assert (Havg : Z.min r (Z.min g bl) <= (r + g + bl) / 3 <= Z.max r (Z.max g bl)).
  { split; [apply Z.div_le_lower_bound | apply Z.div_le_upper_bound]; lia. }
  assert (Hgray : (b + b + b) / 3 = b).
  { replace (b + b + b) with (b * 3) by lia. apply Z.div_mul. lia. }
  rewrite Hgray. change ((0 + 0 + 0) / 3) with 0.
  rewrite !to_u8_id by (unfold CInt.u8; lia).
  repeat split; try lia.
  destruct (Z.gtb_spec b 0); lia.
Qed.

Lemma brightness_bounds_witness :
  RgbColor.wf (RgbColor.mk 200 100 50) /\ CInt.u8 77 /\
  RgbColor.CalculateBrightness (RgbColor.RgbColor_brightness 77) = 77.
Proof.
  split; [in_range | split; [in_range | ]].
  apply (brightness_bounds (RgbColor.mk 200 100 50) 77); in_range.
Defined.

(** ** Current estimation *)

Lemma to_u32_id x : 0 <= x < 2 ^ 32 -> CInt.to_u32 x = x.
Proof. intros Hx. apply Z.mod_small. exact Hx. Qed.

Ltac settings_range :=
  unfold NeoRgbCurrentSettings.wf, NeoRgbwCurrentSettings.wf, CInt.u16; cbn; lia.

(** The share of one channel: between 0 and the constant of the channel,
    with a product that fits [int]. *)
Lemma channel_current_int_range x k :
  CInt.u8 x -> CInt.u16 k ->
  0 <= x * k / 255 <= k /\ x * k < 2 ^ 31.
Proof.
  unfold CInt.u8, CInt.u16. intros Hx Hk. change (2 ^ 31) with 2147483648.
  split; [split|]; [apply Z.div_pos | apply Z.div_le_upper_bound | ]; nia.
Qed.

(** X13: with current constants of at most 16 bits the estimate of an
    RgbColor is the sum of the three shares [channel * constant / 255],
    without any wrap-around; it never exceeds the sum of the three
    constants, is 0 for black and is exactly that sum for white. *)
Theorem rgb_current_estimate (c : RgbColor.t) (s : NeoRgbCurrentSettings.t) :
  RgbColor.wf c -> NeoRgbCurrentSettings.wf s ->
  let red := NeoRgbCurrentSettings.RedTenthMilliAmpere s in
  let green := NeoRgbCurrentSettings.GreenTenthMilliAmpere s in
  let blue := NeoRgbCurrentSettings.BlueTenthMilliAmpere s in
  RgbColor.CalcTotalTenthMilliAmpere c s =
    RgbColor.R c * red / 255 + RgbColor.G c * green / 255 + RgbColor.B c * blue / 255
  /\ RgbColor.CalcTotalTenthMilliAmpere c s <= red + green + blue
  /\ RgbColor.CalcTotalTenthMilliAmpere (RgbColor.mk 0 0 0) s = 0
  /\ RgbColor.CalcTotalTenthMilliAmpere (RgbColor.mk 255 255 255) s = red + green + blue.
Proof.
  destruct c as [r g b], s as [kr kg kb]. intros (Hr & Hg & Hb) (Hkr & Hkg & Hkb).
  cbn [RgbColor.R RgbColor.G RgbColor.B NeoRgbCurrentSettings.RedTenthMilliAmpere
       NeoRgbCurrentSettings.GreenTenthMilliAmpere
       NeoRgbCurrentSettings.BlueTenthMilliAmpere] in *.
  cbv zeta. unfold RgbColor.CalcTotalTenthMilliAmpere.
  cbn [RgbColor.R RgbColor.G RgbColor.B NeoRgbCurrentSettings.RedTenthMilliAmpere
       NeoRgbCurrentSettings.GreenTenthMilliAmpere
       NeoRgbCurrentSettings.BlueTenthMilliAmpere].
  pose proof (channel_current_int_range r kr Hr Hkr) as [Hsr _].
  pose proof (channel_current_int_range g kg Hg Hkg) as [Hsg _].
  pose proof (channel_current_int_range b kb Hb Hkb) as [Hsb _].
  rewrite !Z.add_0_l, !Z.mul_0_l. change (0 / 255) with 0.
  rewrite !(Z.mul_comm 255), !Z.div_mul by lia.
  unfold CInt.u16 in *.
  rewrite !to_u32_id by (change (2 ^ 32) with 4294967296; lia).
  lia.
Qed.

Lemma rgb_current_estimate_witness :
  RgbColor.wf (RgbColor.mk 255 128 0) /\
  NeoRgbCurrentSettings.wf (NeoRgbCurrentSettings.mk 160 160 160) /\
  RgbColor.CalcTotalTenthMilliAmpere (RgbColor.mk 255 128 0)
    (NeoRgbCurrentSettings.mk 160 160 160) = 240.
Proof.
  split; [in_range | split; [settings_range | ]].
  apply (rgb_current_estimate (RgbColor.mk 255 128 0)
           (NeoRgbCurrentSettings.mk 160 160 160));
    [in_range | settings_range].
Defined.

(** X14: the estimate of an RgbwColor is returned in 16 bits.  With
    current constants of at most 16 bits whose sum also fits 16 bits it is
    the sum of the four shares [channel * constant / 255] and never
    exceeds the sum of the constants; without the bound on the sum the
    result can wrap: four constants of 65535 and the colour
    (255,255,255,255) give 65532, not 262140. *)
Theorem rgbw_current_estimate (c : RgbwColor.t) (s : NeoRgbwCurrentSettings.t) :
  RgbwColor.wf c -> NeoRgbwCurrentSettings.wf s ->
  let red := NeoRgbwCurrentSettings.RedTenthMilliAmpere s in
  let green := NeoRgbwCurrentSettings.GreenTenthMilliAmpere s in
  let blue := NeoRgbwCurrentSettings.BlueTenthMilliAmpere s in
  let white := NeoRgbwCurrentSettings.WhiteCurrent s in
  red + green + blue + white <= 65535 ->
  RgbwColor.CalcTotalTenthMilliAmpere c s =
    RgbwColor.R c * red / 255 + RgbwColor.G c * green / 255
    + RgbwColor.B c * blue / 255 + RgbwColor.W c * white / 255
  /\ RgbwColor.CalcTotalTenthMilliAmpere c s <= red + green + blue + white
  /\ RgbwColor.CalcTotalTenthMilliAmpere (RgbwColor.mk 255 255 255 255)
       (NeoRgbwCurrentSettings.mk 65535 65535 65535 65535) = 65532.
Proof.
  destruct c as [r g b w], s as [kr kg kb kw].
  intros (Hr & Hg & Hb & Hw) (Hkr & Hkg & Hkb & Hkw).
  cbn [RgbwColor.R RgbwColor.G RgbwColor.B RgbwColor.W
       NeoRgbwCurrentSettings.RedTenthMilliAmpere
       NeoRgbwCurrentSettings.GreenTenthMilliAmpere
       NeoRgbwCurrentSettings.BlueTenthMilliAmpere
       NeoRgbwCurrentSettings.WhiteCurrent] in *.
  cbv zeta. intros Hsum. unfold RgbwColor.CalcTotalTenthMilliAmpere.
  cbn [RgbwColor.R RgbwColor.G RgbwColor.B RgbwColor.W
       NeoRgbwCurrentSettings.RedTenthMilliAmpere
       NeoRgbwCurrentSettings.GreenTenthMilliAmpere
       NeoRgbwCurrentSettings.BlueTenthMilliAmpere
       NeoRgbwCurrentSettings.WhiteCurrent].
  pose proof (channel_current_int_range r kr Hr Hkr) as [Hsr _].
  pose proof (channel_current_int_range g kg Hg Hkg) as [Hsg _].
  pose proof (channel_current_int_range b kb Hb Hkb) as [Hsb _].
  pose proof (channel_current_int_range w kw Hw Hkw) as [Hsw _].
  rewrite Z.add_0_l.
  rewrite to_u16_id by (unfold CInt.u16; lia).
  repeat split; try lia.
Qed.

Lemma rgbw_current_estimate_witness :
  RgbwColor.wf (RgbwColor.mk 255 128 0 255) /\
  NeoRgbwCurrentSettings.wf (NeoRgbwCurrentSettings.mk 160 160 160 200) /\
  160 + 160 + 160 + 200 <= 65535 /\
  RgbwColor.CalcTotalTenthMilliAmpere (RgbwColor.mk 255 128 0 255)
    (NeoRgbwCurrentSettings.mk 160 160 160 200) = 440.
Proof.
  split; [in_range | split; [settings_range | split; [lia | ]]].
  apply (rgbw_current_estimate (RgbwColor.mk 255 128 0 255)
           (NeoRgbwCurrentSettings.mk 160 160 160 200));
    [in_range | settings_range | cbn; lia].
Defined.

(** ** Deciding a property of channels by running through all values *)

Lemma below_spec (n : nat) (f : Z -> bool) :
  Exhaustive.below n f = true ->
  forall x, 0 <= x < Z.of_nat n -> f x = true.
Proof.
  induction n as [|k IH]; cbn [Exhaustive.below]; intros Hall x Hx.
  - lia.
  - apply andb_true_iff in Hall as [Hk Hrest].
    destruct (Z.eq_dec x (Z.of_nat k)) as [->|Hne]; [exact Hk|].
    apply IH; [exact Hrest | lia].
Qed.

Lemma all_u8_spec (f : Z -> bool) :
  Exhaustive.all_u8 f = true -> forall x, CInt.u8 x -> f x = true.
Proof.
  intros Hall x Hx. apply (below_spec 256 f Hall).
  unfold CInt.u8 in Hx. change (Z.of_nat 256) with 256. lia.
Qed.

Lemma all_u8_pairs_spec (f : Z -> Z -> bool) :
  Exhaustive.all_u8_pairs f = true ->
  forall x y, CInt.u8 x -> CInt.u8 y -> f x y = true.
Proof.
  intros Hall x y Hx Hy.
  apply (all_u8_spec (f x)); [|exact Hy].
  apply (all_u8_spec (fun x => Exhaustive.all_u8 (f x)) Hall x Hx).
Qed.

Lemma same_float_eq (x y : F32.float) :
  Exhaustive.same_float x y = true -> x = y.
Proof.
  destruct x as [s|s| |s m e], y as [s'|s'| |s' m' e']; cbn; try discriminate.
  - intros H. apply Bool.eqb_prop in H. now subst.
  - intros H. apply Bool.eqb_prop in H. now subst.
  - reflexivity.
  - rewrite !andb_true_iff, Pos.eqb_eq, Z.eqb_eq.
    intros [[H ->] ->]. apply Bool.eqb_prop in H. now subst.
Qed.

Lemma is_some_eq (o : option Z) (z : Z) :
  Exhaustive.is_some o z = true -> o = Some z.
Proof.
  destruct o as [y|]; cbn; [|discriminate].
  intros H. apply Z.eqb_eq in H. now subst.
Qed.

(** ** LinearBlend on all colours *)

Section BlendChannel.

Variables l r : Z.
Hypothesis Hl : CInt.u8 l.
Hypothesis Hr : CInt.u8 r.

Lemma blend_channel_zero :
  F32.to_u8 (RgbColor.blend_channel l r F32.zero) = Some l.
Proof.
  apply is_some_eq.
  apply (all_u8_pairs_spec
           (fun l r => Exhaustive.is_some
                         (F32.to_u8 (RgbColor.blend_channel l r F32.zero)) l));
    [vm_compute; reflexivity | exact Hl | exact Hr].
Qed.

Lemma blend_channel_one :
  F32.to_u8 (RgbColor.blend_channel l r F32.one) = Some r.
Proof.
  apply is_some_eq.
  apply (all_u8_pairs_spec
           (fun l r => Exhaustive.is_some
                         (F32.to_u8 (RgbColor.blend_channel l r F32.one)) r));
    [vm_compute; reflexivity | exact Hl | exact Hr].
Qed.

Lemma blend_channel_half :
  F32.to_u8 (RgbColor.blend_channel l r F32.half) = Some ((l + r) / 2).
Proof.
  apply is_some_eq.
  apply (all_u8_pairs_spec
           (fun l r => Exhaustive.is_some
                         (F32.to_u8 (RgbColor.blend_channel l r F32.half))
                         ((l + r) / 2)));
    [vm_compute; reflexivity | exact Hl | exact Hr].
Qed.

End BlendChannel.

(** X15: for all colours, [LinearBlend] at progress 0.0 is the left
    colour, at progress 1.0 the right colour, and at progress 0.5 the
    channel-wise mean [(left + right) / 2], rounded down. *)
Theorem rgb_linear_blend_all (left right : RgbColor.t) :
  RgbColor.wf left -> RgbColor.wf right ->
  RgbColor.LinearBlend left right F32.zero = Some left
  /\ RgbColor.LinearBlend left right F32.one = Some right
  /\ RgbColor.LinearBlend left right F32.half =
       Some (RgbColor.mk ((RgbColor.R left + RgbColor.R right) / 2)
                         ((RgbColor.G left + RgbColor.G right) / 2)
                         ((RgbColor.B left + RgbColor.B right) / 2)).
Proof.
  destruct left as [lr lg lb], right as [rr rg rb].
  intros (Hlr & Hlg & Hlb) (Hrr & Hrg & Hrb).
  cbn [RgbColor.R RgbColor.G RgbColor.B] in *.
  unfold RgbColor.LinearBlend, RgbColor.of_floats.
  cbn [RgbColor.R RgbColor.G RgbColor.B].
  rewrite !blend_channel_zero, !blend_channel_one, !blend_channel_half
    by assumption.
  repeat split.
Qed.

Lemma rgb_linear_blend_all_witness :
  RgbColor.wf (RgbColor.mk 3 255 0) /\ RgbColor.wf (RgbColor.mk 2 0 255) /\
  RgbColor.LinearBlend (RgbColor.mk 3 255 0) (RgbColor.mk 2 0 255) F32.half =
    Some (RgbColor.mk 2 127 127).
Proof.
  split; [in_range | split; [in_range | ]].
  apply (rgb_linear_blend_all (RgbColor.mk 3 255 0) (RgbColor.mk 2 0 255)); in_range.
Defined.

(** X16: the same holds for RgbwColor, W included: [LinearBlend] at
    progress 0.0 is the left colour, at 1.0 the right colour, and at 0.5
    the channel-wise mean rounded down. *)
Theorem rgbw_linear_blend_all (left right : RgbwColor.t) :
  RgbwColor.wf left -> RgbwColor.wf right ->
  RgbwColor.LinearBlend left right F32.zero = Some left
  /\ RgbwColor.LinearBlend left right F32.one = Some right
  /\ RgbwColor.LinearBlend left right F32.half =
       Some (RgbwColor.mk ((RgbwColor.R left + RgbwColor.R right) / 2)
                          ((RgbwColor.G left + RgbwColor.G right) / 2)
                          ((RgbwColor.B left + RgbwColor.B right) / 2)
                          ((RgbwColor.W left + RgbwColor.W right) / 2)).
Proof.
  destruct left as [lr lg lb lw], right as [rr rg rb rw].
  intros (Hlr & Hlg & Hlb & Hlw) (Hrr & Hrg & Hrb & Hrw).
  cbn [RgbwColor.R RgbwColor.G RgbwColor.B RgbwColor.W] in *.
  unfold RgbwColor.LinearBlend, RgbwColor.of_floats.
  cbn [RgbwColor.R RgbwColor.G RgbwColor.B RgbwColor.W].
  change RgbwColor.blend_channel with RgbColor.blend_channel.
  rewrite !blend_channel_zero, !blend_channel_one, !blend_channel_half
    by assumption.
  repeat split.
Qed.

Lemma rgbw_linear_blend_all_witness :
  RgbwColor.wf (RgbwColor.mk 3 255 0 9) /\ RgbwColor.wf (RgbwColor.mk 2 0 255 200) /\
  RgbwColor.LinearBlend (RgbwColor.mk 3 255 0 9) (RgbwColor.mk 2 0 255 200) F32.one =
    Some (RgbwColor.mk 2 0 255 200).
Proof.
  split; [in_range | split; [in_range | ]].
  apply (rgbw_linear_blend_all (RgbwColor.mk 3 255 0 9) (RgbwColor.mk 2 0 255 200));
    in_range.
Defined.

(** ** BilinearBlend at the corners of the unit square *)

Section FloatOfChannel.

Variable a : Z.
Hypothesis Ha : CInt.u8 a.

Lemma of_Z_mul_one : F32.mul (F32.of_Z a) F32.one = F32.of_Z a.
Proof.
  apply same_float_eq.
  apply (all_u8_spec
           (fun a => Exhaustive.same_float (F32.mul (F32.of_Z a) F32.one) (F32.of_Z a)));
    [vm_compute; reflexivity | exact Ha].
Qed.

Lemma of_Z_mul_zero : F32.mul (F32.of_Z a) F32.zero = F32.zero.
Proof.
  apply same_float_eq.
  apply (all_u8_spec
           (fun a => Exhaustive.same_float (F32.mul (F32.of_Z a) F32.zero) F32.zero));
    [vm_compute; reflexivity | exact Ha].
Qed.

Lemma of_Z_add_zero_r : F32.add (F32.of_Z a) F32.zero = F32.of_Z a.
Proof.
  apply same_float_eq.
  apply (all_u8_spec
           (fun a => Exhaustive.same_float (F32.add (F32.of_Z a) F32.zero) (F32.of_Z a)));
    [vm_compute; reflexivity | exact Ha].
Qed.

Lemma of_Z_add_zero_l : F32.add F32.zero (F32.of_Z a) = F32.of_Z a.
Proof.
  apply same_float_eq.
  apply (all_u8_spec
           (fun a => Exhaustive.same_float (F32.add F32.zero (F32.of_Z a)) (F32.of_Z a)));
    [vm_compute; reflexivity | exact Ha].
Qed.

Lemma of_Z_to_u8 : F32.to_u8 (F32.of_Z a) = Some a.
Proof.
  apply is_some_eq.
  apply (all_u8_spec (fun a => Exhaustive.is_some (F32.to_u8 (F32.of_Z a)) a));
    [vm_compute; reflexivity | exact Ha].
Qed.

End FloatOfChannel.

Section BilinearChannel.

Variables c00 c01 c10 c11 : Z.
Hypothesis H00 : CInt.u8 c00.
Hypothesis H01 : CInt.u8 c01.
Hypothesis H10 : CInt.u8 c10.
Hypothesis H11 : CInt.u8 c11.

(** The weights at a corner are exactly 1 for that corner and 0 for the
    other three, so the sum is the channel of that corner. *)
Lemma bilinear_channel_corners :
  F32.to_u8 (RgbColor.bilinear_channel F32.zero F32.zero c00 c01 c10 c11) = Some c00
  /\ F32.to_u8 (RgbColor.bilinear_channel F32.one F32.zero c00 c01 c10 c11) = Some c10
  /\ F32.to_u8 (RgbColor.bilinear_channel F32.zero F32.one c00 c01 c10 c11) = Some c01
  /\ F32.to_u8 (RgbColor.bilinear_channel F32.one F32.one c00 c01 c10 c11) = Some c11.
Proof.
  unfold RgbColor.bilinear_channel. cbv zeta.
  change (F32.sub F32.one F32.zero) with F32.one.
  change (F32.sub F32.one F32.one) with F32.zero.
  change (F32.mul F32.one F32.one) with F32.one.
  change (F32.mul F32.zero F32.one) with F32.zero.
  change (F32.mul F32.one F32.zero) with F32.zero.
  change (F32.mul F32.zero F32.zero) with F32.zero.
  rewrite !of_Z_mul_one, !of_Z_mul_zero by assumption.
  change (F32.add F32.zero F32.zero) with F32.zero.
  rewrite ?of_Z_add_zero_r, ?of_Z_add_zero_l by assumption.
  rewrite ?of_Z_add_zero_r, ?of_Z_add_zero_l by assumption.
  rewrite ?of_Z_add_zero_r, ?of_Z_add_zero_l by assumption.
  rewrite !of_Z_to_u8 by assumption.
  repeat split.
Qed.

End BilinearChannel.

(** X17: [BilinearBlend] at the four corners of the unit square returns
    one of the four colours unchanged: [c00] at (0,0), [c10] at (1,0),
    [c01] at (0,1) and [c11] at (1,1), the first coordinate being [x]. *)
Theorem rgb_bilinear_blend_corners (c00 c01 c10 c11 : RgbColor.t) :
  RgbColor.wf c00 -> RgbColor.wf c01 -> RgbColor.wf c10 -> RgbColor.wf c11 ->
  RgbColor.BilinearBlend c00 c01 c10 c11 F32.zero F32.zero = Some c00
  /\ RgbColor.BilinearBlend c00 c01 c10 c11 F32.one F32.zero = Some c10
  /\ RgbColor.BilinearBlend c00 c01 c10 c11 F32.zero F32.one = Some c01
  /\ RgbColor.BilinearBlend c00 c01 c10 c11 F32.one F32.one = Some c11.
Proof.
  destruct c00 as [r00 g00 b00], c01 as [r01 g01 b01],
           c10 as [r10 g10 b10], c11 as [r11 g11 b11].
  intros (Hr00 & Hg00 & Hb00) (Hr01 & Hg01 & Hb01)
         (Hr10 & Hg10 & Hb10) (Hr11 & Hg11 & Hb11).
  cbn [RgbColor.R RgbColor.G RgbColor.B] in *.
  unfold RgbColor.BilinearBlend, RgbColor.of_floats.
  cbn [RgbColor.R RgbColor.G RgbColor.B].
  destruct (bilinear_channel_corners r00 r01 r10 r11) as (-> & -> & -> & ->);
    try assumption.
  destruct (bilinear_channel_corners g00 g01 g10 g11) as (-> & -> & -> & ->);
    try assumption.
  destruct (bilinear_channel_corners b00 b01 b10 b11) as (-> & -> & -> & ->);
    try assumption.
  repeat split.
Qed.

Lemma rgb_bilinear_blend_corners_witness :
  RgbColor.wf (RgbColor.mk 1 2 3) /\ RgbColor.wf (RgbColor.mk 40 50 60) /\
  RgbColor.wf (RgbColor.mk 70 80 90) /\ RgbColor.wf (RgbColor.mk 255 0 128) /\
  RgbColor.BilinearBlend (RgbColor.mk 1 2 3) (RgbColor.mk 40 50 60)
    (RgbColor.mk 70 80 90) (RgbColor.mk 255 0 128) F32.one F32.zero =
    Some (RgbColor.mk 70 80 90).
Proof.
  repeat (split; [in_range | ]).
  apply (rgb_bilinear_blend_corners (RgbColor.mk 1 2 3) (RgbColor.mk 40 50 60)
           (RgbColor.mk 70 80 90) (RgbColor.mk 255 0 128)); in_range.
Defined.

(** X18: [BilinearBlend] of RgbwColor at the four corners of the unit
    square returns one of the four colours unchanged, W included: [c00] at
    (0,0), [c10] at (1,0), [c01] at (0,1) and [c11] at (1,1). *)
Theorem rgbw_bilinear_blend_corners (c00 c01 c10 c11 : RgbwColor.t) :
  RgbwColor.wf c00 -> RgbwColor.wf c01 -> RgbwColor.wf c10 -> RgbwColor.wf c11 ->
  RgbwColor.BilinearBlend c00 c01 c10 c11 F32.zero F32.zero = Some c00
  /\ RgbwColor.BilinearBlend c00 c01 c10 c11 F32.one F32.zero = Some c10
  /\ RgbwColor.BilinearBlend c00 c01 c10 c11 F32.zero F32.one = Some c01
  /\ RgbwColor.BilinearBlend c00 c01 c10 c11 F32.one F32.one = Some c11.
Proof.
  destruct c00 as [r00 g00 b00 w00], c01 as [r01 g01 b01 w01],
           c10 as [r10 g10 b10 w10], c11 as [r11 g11 b11 w11].
  intros (Hr00 & Hg00 & Hb00 & Hw00) (Hr01 & Hg01 & Hb01 & Hw01)
         (Hr10 & Hg10 & Hb10 & Hw10) (Hr11 & Hg11 & Hb11 & Hw11).
  cbn [RgbwColor.R RgbwColor.G RgbwColor.B RgbwColor.W] in *.
  unfold RgbwColor.BilinearBlend, RgbwColor.of_floats.
  cbn [RgbwColor.R RgbwColor.G RgbwColor.B RgbwColor.W].
  change RgbwColor.bilinear_channel with RgbColor.bilinear_channel.
  destruct (bilinear_channel_corners r00 r01 r10 r11) as (-> & -> & -> & ->);
    try assumption.
  destruct (bilinear_channel_corners g00 g01 g10 g11) as (-> & -> & -> & ->);
    try assumption.
  destruct (bilinear_channel_corners b00 b01 b10 b11) as (-> & -> & -> & ->);
    try assumption.
  destruct (bilinear_channel_corners w00 w01 w10 w11) as (-> & -> & -> & ->);
    try assumption.
  repeat split.
Qed.

Lemma rgbw_bilinear_blend_corners_witness :
  RgbwColor.wf (RgbwColor.mk 1 2 3 4) /\ RgbwColor.wf (RgbwColor.mk 40 50 60 70) /\
  RgbwColor.wf (RgbwColor.mk 70 80 90 100) /\ RgbwColor.wf (RgbwColor.mk 255 0 128 7) /\
  RgbwColor.BilinearBlend (RgbwColor.mk 1 2 3 4) (RgbwColor.mk 40 50 60 70)
    (RgbwColor.mk 70 80 90 100) (RgbwColor.mk 255 0 128 7) F32.zero F32.one =
    Some (RgbwColor.mk 40 50 60 70).
Proof.
  repeat (split; [in_range | ]).
  apply (rgbw_bilinear_blend_corners (RgbwColor.mk 1 2 3 4) (RgbwColor.mk 40 50 60 70)
           (RgbwColor.mk 70 80 90 100) (RgbwColor.mk 255 0 128 7)); in_range.
Defined.

(** ** HSL to RGB without saturation or lightness *)

Lemma eqb_zero_inv (x : F32.float) :
  F32.eqb x F32.zero = true -> exists sg, x = S754_zero sg.
Proof.
  destruct x as [sg|sg| |sg m e]; cbn; try discriminate.
  - intros _. now exists sg.
  - destruct sg; discriminate.
  - destruct sg; discriminate.
Qed.

(** X19: in the HSL to RGB conversion a saturation of zero or a lightness
    of zero makes the hue irrelevant: the three channels are all
    converted from [L * 255]; with a lightness of zero the result is
    black whatever the hue and the saturation are. *)
Theorem hsl_to_rgb_achromatic (h h' s l : F32.float) :
  F32.eqb s F32.zero = true \/ F32.eqb l F32.zero = true ->
  HslToRgb.convertToRgbColor (HslColor.mk h s l) =
    RgbColor.of_floats (F32.mul l F32.f255) (F32.mul l F32.f255) (F32.mul l F32.f255)
  /\ HslToRgb.convertToRgbColor (HslColor.mk h s l) =
     HslToRgb.convertToRgbColor (HslColor.mk h' s l)
  /\ (F32.eqb l F32.zero = true ->
      HslToRgb.convertToRgbColor (HslColor.mk h s l) = Some (RgbColor.mk 0 0 0)).
Proof.
  intros Hzero.
  assert (Hbranch : F32.eqb s F32.zero || F32.eqb l F32.zero = true)
    by (apply orb_true_iff; exact Hzero).
  assert (Hconv : forall hue,
    HslToRgb.convertToRgbColor (HslColor.mk hue s l) =
    RgbColor.of_floats (F32.mul l F32.f255) (F32.mul l F32.f255) (F32.mul l F32.f255)).
  { intros hue. unfold HslToRgb.convertToRgbColor.
    cbn [HslColor.H HslColor.S HslColor.L]. now rewrite Hbranch. }
  split; [apply Hconv | split; [now rewrite !Hconv | ]].
  intros Hl. rewrite Hconv.
  destruct (eqb_zero_inv l Hl) as [sg ->]. destruct sg; reflexivity.
Qed.

Lemma hsl_to_rgb_achromatic_witness :
  HslToRgb.convertToRgbColor (HslColor.mk F32.half F32.one (S754_zero true)) =
    Some (RgbColor.mk 0 0 0).
Proof.
  apply (hsl_to_rgb_achromatic F32.half F32.half F32.one (S754_zero true));
    [right; reflexivity | reflexivity].
Defined.

(** ** Grays through HSL and HSB *)

Lemma rgb_eqb_true (a b : RgbColor.t) : RgbColor.eqb a b = true -> a = b.
Proof.
  destruct a as [r g bl], b as [r' g' bl']. unfold RgbColor.eqb. cbn.
  rewrite !andb_true_iff, !Z.eqb_eq. intros [[-> ->] ->]. reflexivity.
Qed.

Lemma is_rgb_eq (o : option RgbColor.t) (r g b : Z) :
  Exhaustive.is_rgb o r g b = true -> o = Some (RgbColor.mk r g b).
Proof.
  destruct o as [c|]; cbn; [|discriminate].
  intros H. apply rgb_eqb_true in H. now subst.
Qed.

(** X20: a gray [(v,v,v)] converts to the HSL colour with hue 0,
    saturation 0 and lightness [v / 255], and converting that back gives
    [(v,v,v)] again, for every one of the 256 grays. *)
Theorem hsl_gray_round_trip (v : Z) :
  CInt.u8 v ->
  HslColor.convertToHslColor (RgbColor.mk v v v) =
    HslColor.mk F32.zero F32.zero (HslColor.normalized v)
  /\ HslToRgb.convertToRgbColor (HslColor.convertToHslColor (RgbColor.mk v v v)) =
     Some (RgbColor.mk v v v).
Proof.
  intros Hv.
  assert (Hall : Exhaustive.all_u8 (fun v =>
            let hsl := HslColor.convertToHslColor (RgbColor.mk v v v) in
            Exhaustive.same_float (HslColor.H hsl) F32.zero
            && Exhaustive.same_float (HslColor.S hsl) F32.zero
            && Exhaustive.same_float (HslColor.L hsl) (HslColor.normalized v)
            && Exhaustive.is_rgb (HslToRgb.convertToRgbColor hsl) v v v) = true)
    by (vm_compute; reflexivity).
  pose proof (all_u8_spec _ Hall v Hv) as Hv'. cbv zeta in Hv'.
  rewrite !andb_true_iff in Hv'. destruct Hv' as [[[HH HS] HL] Hback].
  apply same_float_eq in HH, HS, HL. apply is_rgb_eq in Hback.
  split; [|exact Hback].
  destruct (HslColor.convertToHslColor (RgbColor.mk v v v)) as [hh ss ll].
  cbn in HH, HS, HL. now subst.
Qed.

Lemma hsl_gray_round_trip_witness :
  CInt.u8 200 /\
  HslToRgb.convertToRgbColor (HslColor.convertToHslColor (RgbColor.mk 200 200 200)) =
    Some (RgbColor.mk 200 200 200).
Proof.
  split; [in_range | ].
  apply (hsl_gray_round_trip 200); in_range.
Defined.

(** X21: a gray [(v,v,v)] converts to the HSB colour with hue 0,
    saturation 0 and brightness [v / 255].  Converting that back does not
    give the gray: the brightness is converted to 8 bits as it is, so
    every gray below 255 comes back as (0,0,0) and the gray 255 as
    (1,1,1). *)
Theorem hsb_gray_round_trip (v : Z) :
  CInt.u8 v ->
  RgbToHsb.convertToHsbColor (RgbColor.mk v v v) =
    HsbColor.mk F32.zero F32.zero (HslColor.normalized v)
  /\ RgbColor.convertToRgbColor (RgbToHsb.convertToHsbColor (RgbColor.mk v v v)) =
     Some (if v =? 255 then RgbColor.mk 1 1 1 else RgbColor.mk 0 0 0).
Proof.
  intros Hv.
  assert (Hall : Exhaustive.all_u8 (fun v =>
            let hsb := RgbToHsb.convertToHsbColor (RgbColor.mk v v v) in
            let k := if v =? 255 then 1 else 0 in
            Exhaustive.same_float (HsbColor.H hsb) F32.zero
            && Exhaustive.same_float (HsbColor.S hsb) F32.zero
            && Exhaustive.same_float (HsbColor.B hsb) (HslColor.normalized v)
            && Exhaustive.is_rgb (RgbColor.convertToRgbColor hsb) k k k) = true)
    by (vm_compute; reflexivity).
  pose proof (all_u8_spec _ Hall v Hv) as Hv'. cbv zeta in Hv'.
  rewrite !andb_true_iff in Hv'. destruct Hv' as [[[HH HS] HB] Hback].
  apply same_float_eq in HH, HS, HB. apply is_rgb_eq in Hback.
  split.
  - destruct (RgbToHsb.convertToHsbColor (RgbColor.mk v v v)) as [hh ss bb].
    cbn in HH, HS, HB. now subst.
  - rewrite Hback. now destruct (v =? 255).
Qed.

Lemma hsb_gray_round_trip_witness :
  CInt.u8 200 /\
  RgbColor.convertToRgbColor (RgbToHsb.convertToHsbColor (RgbColor.mk 200 200 200)) =
    Some (RgbColor.mk 0 0 0).
Proof.
  split; [in_range | ].
  apply (hsb_gray_round_trip 200); in_range.
Defined.

(** ** HSB to RGB takes the brightness as it is *)

Lemma bounded_mantissa m e :
  bounded F32.prec F32.emax m e = true -> Zpos m < 2 ^ 24.
Proof.
  unfold bounded, canonical_mantissa. rewrite andb_true_iff, Z.eqb_eq, fexp32.
  intros [Hcanon _]. pose proof (digits2_bounds m) as [_ Hd].
  apply Z.lt_le_trans with (2 ^ Zpos (digits2_pos m)); [exact Hd|].
  apply Z.pow_le_mono_r; lia.
Qed.

(** A number of the type in [0,1) has integral part 0. *)
Lemma to_u8_below_one (b : F32.float) :
  F32.valid b = true -> F32.leb F32.zero b = true -> F32.ltb b F32.one = true ->
  F32.to_u8 b = Some 0.
Proof.
  destruct b as [sg|sg| |sg m e]; intros Hvalid Hlo Hhi.
  - reflexivity.
  - destruct sg; discriminate.
  - discriminate.
  - destruct sg; [discriminate|].
    apply bounded_mantissa in Hvalid.
    assert (Hsmall : Zpos m < 2 ^ (- e) /\ e < 0).
    { unfold F32.ltb, SFltb, F32.one in Hhi. cbn [SFcompare] in Hhi.
      destruct (Z.compare_spec e (-23)) as [-> | Hlt | Hgt]; try discriminate.
      - split; [|lia]. change (2 ^ (- -23)) with 8388608.
        rewrite Pos.compare_cont_spec in Hhi. cbn [Pos.switch_Eq] in Hhi.
        destruct (Pos.compare_spec m 8388608) as [ | Hm | ]; try discriminate.
        apply Pos2Z.pos_lt_pos. exact Hm.
      - split; [|lia]. apply Z.lt_le_trans with (2 ^ 24); [exact Hvalid|].
        apply Z.pow_le_mono_r; lia. }
    destruct Hsmall as [Hm He].
    unfold F32.to_u8, F32.to_range, F32.trunc. cbn [cond_Zopp].
    rewrite Z.shiftl_div_pow2 by lia.
    rewrite Z.div_small by lia. reflexivity.
Qed.

(** X22: an HSB colour of saturation zero and brightness in [0,1)
    converts to black, whatever its hue: the brightness is converted to
    8 bits without being scaled to 0..255. *)
Theorem hsb_achromatic_below_one_is_black (h s b : F32.float) :
  F32.valid b = true ->
  F32.eqb s F32.zero = true ->
  F32.leb F32.zero b = true -> F32.ltb b F32.one = true ->
  RgbColor.convertToRgbColor (HsbColor.mk h s b) = Some (RgbColor.mk 0 0 0).
Proof.
  intros Hvalid Hs Hlo Hhi.
  destruct (eqb_zero_inv s Hs) as [sg ->].
  unfold RgbColor.convertToRgbColor. cbn [HsbColor.H HsbColor.S HsbColor.B].
  assert (Hfz : RgbColor.fuzzyCompare (S754_zero sg) F32.zero = true)
    by (destruct sg; reflexivity).
  rewrite Hfz. unfold RgbColor.of_floats.
  now rewrite (to_u8_below_one b Hvalid Hlo Hhi).
Qed.

Lemma hsb_achromatic_below_one_is_black_witness :
  F32.valid F32.half = true /\ F32.eqb F32.zero F32.zero = true /\
  F32.leb F32.zero F32.half = true /\ F32.ltb F32.half F32.one = true /\
  RgbColor.convertToRgbColor (HsbColor.mk F32.zero F32.zero F32.half) =
    Some (RgbColor.mk 0 0 0).
Proof.
  repeat (split; [reflexivity | ]).
  apply (hsb_achromatic_below_one_is_black F32.zero F32.zero F32.half); reflexivity.
Defined.

(** ** fuzzyCompare of a number with itself *)

(** X23: [fuzzyCompare(x, x)] holds for every zero and every finite
    number, and fails for the infinities and for NaN (whose difference
    with themselves is NaN). *)
Theorem fuzzyCompare_reflexive (x : F32.float) :
  RgbColor.fuzzyCompare x x =
    match x with
    | S754_zero _ | S754_finite _ _ _ => true
    | S754_infinity _ | S754_nan => false
    end.
Proof.
  destruct x as [sg|sg| |sg m e].
  - destruct sg; reflexivity.
  - destruct sg; reflexivity.
  - reflexivity.
  - unfold RgbColor.fuzzyCompare.
    assert (Hsub : F32.sub (S754_finite sg m e) (S754_finite sg m e) = F32.zero).
    { unfold F32.sub, SFsub. rewrite Z.sub_diag. reflexivity. }
    rewrite Hsub. cbn [F32.abs SFabs F32.zero].
    change (F32.mul (S754_zero false) F32.f100000) with (S754_zero false).
    unfold F32.min. destruct (F32.ltb _ _); reflexivity.
Qed.

(** ** The primary and secondary colours through HSL and HSB *)

(** X24: the colours whose channels are all [v] or 0 survive the
    conversion to HSL and back: red, yellow, green and blue of every
    intensity come back unchanged, cyan and magenta come back with one
    channel (blue for cyan, red for magenta) either unchanged or one
    level lower. *)
Theorem hsl_ramp_round_trip (v : Z) :
  CInt.u8 v ->
  Exhaustive.through_hsl (RgbColor.mk v 0 0) = Some (RgbColor.mk v 0 0)
  /\ Exhaustive.through_hsl (RgbColor.mk v v 0) = Some (RgbColor.mk v v 0)
  /\ Exhaustive.through_hsl (RgbColor.mk 0 v 0) = Some (RgbColor.mk 0 v 0)
  /\ Exhaustive.through_hsl (RgbColor.mk 0 0 v) = Some (RgbColor.mk 0 0 v)
  /\ (Exhaustive.through_hsl (RgbColor.mk 0 v v) = Some (RgbColor.mk 0 v v) \/
      Exhaustive.through_hsl (RgbColor.mk 0 v v) = Some (RgbColor.mk 0 v (v - 1)))
  /\ (Exhaustive.through_hsl (RgbColor.mk v 0 v) = Some (RgbColor.mk v 0 v) \/
      Exhaustive.through_hsl (RgbColor.mk v 0 v) = Some (RgbColor.mk (v - 1) 0 v)).
Proof.
  intros Hv.
  assert (Hall : Exhaustive.all_u8 (fun v =>
            Exhaustive.is_rgb (Exhaustive.through_hsl (RgbColor.mk v 0 0)) v 0 0
            && Exhaustive.is_rgb (Exhaustive.through_hsl (RgbColor.mk v v 0)) v v 0
            && Exhaustive.is_rgb (Exhaustive.through_hsl (RgbColor.mk 0 v 0)) 0 v 0
            && Exhaustive.is_rgb (Exhaustive.through_hsl (RgbColor.mk 0 0 v)) 0 0 v
            && (Exhaustive.is_rgb (Exhaustive.through_hsl (RgbColor.mk 0 v v)) 0 v v
                || Exhaustive.is_rgb (Exhaustive.through_hsl (RgbColor.mk 0 v v)) 0 v (v - 1))
            && (Exhaustive.is_rgb (Exhaustive.through_hsl (RgbColor.mk v 0 v)) v 0 v
                || Exhaustive.is_rgb (Exhaustive.through_hsl (RgbColor.mk v 0 v)) (v - 1) 0 v))
          = true)
    by (vm_compute; reflexivity).
  pose proof (all_u8_spec _ Hall v Hv) as Hv'. cbv beta in Hv'.
  rewrite !andb_true_iff, !orb_true_iff in Hv'.
  destruct Hv' as [[[[[H1 H2] H3] H4] H5] H6].
  repeat split; try (apply is_rgb_eq; assumption).
  - destruct H5 as [H5|H5]; [left|right]; apply is_rgb_eq; exact H5.
  - destruct H6 as [H6|H6]; [left|right]; apply is_rgb_eq; exact H6.
Qed.

Lemma hsl_ramp_round_trip_witness :
  CInt.u8 7 /\
  Exhaustive.through_hsl (RgbColor.mk 7 0 0) = Some (RgbColor.mk 7 0 0).
Proof.
  split; [in_range | ].
  apply (hsl_ramp_round_trip 7); in_range.
Defined.

(** X25: the hue of these colours does not depend on their intensity,
    and the HSL and the HSB conversion agree on it: for every [v] from 1
    to 255 red, yellow, green, cyan, blue and magenta have the hue [k / 6]
    with [k] = 0, 1, 2, 3, 4, 5; in HSB their saturation is 1 and their
    brightness [v / 255]. *)
Theorem ramp_hue (k v : Z) :
  0 <= k <= 5 -> 1 <= v <= 255 ->
  HslColor.H (HslColor.convertToHslColor (Exhaustive.ramp k v)) =
    F32.div (F32.of_Z k) F32.six
  /\ RgbToHsb.convertToHsbColor (Exhaustive.ramp k v) =
     HsbColor.mk (F32.div (F32.of_Z k) F32.six) F32.one (HslColor.normalized v).
Proof.
  intros Hk Hv.
  assert (Hall : Exhaustive.below 6 (fun k => Exhaustive.all_u8 (fun v =>
            (v =? 0) ||
            let hsb := RgbToHsb.convertToHsbColor (Exhaustive.ramp k v) in
            let hue := F32.div (F32.of_Z k) F32.six in
            Exhaustive.same_float
              (HslColor.H (HslColor.convertToHslColor (Exhaustive.ramp k v))) hue
            && Exhaustive.same_float (HsbColor.H hsb) hue
            && Exhaustive.same_float (HsbColor.S hsb) F32.one
            && Exhaustive.same_float (HsbColor.B hsb) (HslColor.normalized v))) = true)
    by (vm_compute; reflexivity).
  pose proof (below_spec 6 _ Hall k ltac:(cbn; lia)) as Hk'. cbv beta in Hk'.
  pose proof (all_u8_spec _ Hk' v ltac:(unfold CInt.u8; lia)) as Hv'.
  cbv beta zeta in Hv'.
  apply orb_true_iff in Hv' as [Hzero | Hv']; [apply Z.eqb_eq in Hzero; lia|].
  rewrite !andb_true_iff in Hv'. destruct Hv' as [[[Hhsl HH] HS] HB].
  apply same_float_eq in Hhsl, HH, HS, HB. split; [exact Hhsl|].
  destruct (RgbToHsb.convertToHsbColor (Exhaustive.ramp k v)) as [hh ss bb].
  cbn in HH, HS, HB. now subst.
Qed.

Lemma ramp_hue_witness :
  0 <= 3 <= 5 /\ 1 <= 200 <= 255 /\
  HslColor.H (HslColor.convertToHslColor (RgbColor.mk 0 200 200)) = F32.half.
Proof.
  split; [lia | split; [lia | ]].
  apply (ramp_hue 3 200); lia.
Defined.
